(** * Career-Advisor-AI: the conversation loop of [app.py]

    A shallow embedding of the Streamlit script [src/app.py]: the
    credential lookup at the top of the script, the helper functions
    [build_input_parts] and [call_responses_api], the "Clear Conversation
    History" button and the [chat_input] handler, followed by the
    properties of the specification stated over them.

    The script is re-executed by Streamlit on every interaction.  One
    execution is modelled as a function from the session state and the
    event that triggered it to the new session state, together with what
    the execution sent to the completion endpoint and what it displayed. *)

From Stdlib Require Import NArith Strings.String Strings.Ascii Init.Byte.
From stdpp Require Import base option list gmap strings.

(** ** Python values *)

(** A Python [str] is a sequence of Unicode code points. *)
Definition codepoint := N.
Definition pystr := list codepoint.

(** The code points of an ASCII literal of the script. *)
Definition lit (s : string) : pystr :=
  map N_of_ascii (list_ascii_of_string s).

(** Truthiness of a [str] ([if s:]): the empty string is false. *)
Definition truthy (s : pystr) : bool :=
  match s with
  | [] => false
  | _ :: _ => true
  end.

(** Truthiness of an [Optional[str]]: [None] and the empty string are false. *)
Definition truthy_opt (o : option pystr) : bool :=
  match o with
  | None => false
  | Some s => truthy s
  end.

(** [str(x)] of an [Optional[str]] inside an f-string: [None] prints as
    the text None. *)
Definition format_opt (o : option pystr) : pystr :=
  match o with
  | None => lit "None"
  | Some s => s
  end.

Module Py.

(** The code points [str.strip()] removes when called without argument
    (CPython's [Py_UNICODE_ISSPACE]). *)
Definition isspace (c : codepoint) : bool :=
  ((9 <=? c) && (c <=? 13)
   || (28 <=? c) && (c <=? 32)
   || (c =? 133) || (c =? 160) || (c =? 5760)
   || (8192 <=? c) && (c <=? 8202)
   || (c =? 8232) || (c =? 8233) || (c =? 8239) || (c =? 8287)
   || (c =? 12288))%N.

Fixpoint lstrip (s : pystr) : pystr :=
  match s with
  | [] => []
  | c :: s' => if isspace c then lstrip s' else s
  end.

Definition rstrip (s : pystr) : pystr := rev (lstrip (rev s)).

(** [s.strip()] *)
Definition strip (s : pystr) : pystr := rstrip (lstrip s).

(** [s.split(sep)] for a one-character separator: never the empty list. *)
Fixpoint split (sep : codepoint) (s : pystr) : list pystr :=
  match s with
  | [] => [[]]
  | c :: s' =>
      if (c =? sep)%N then [] :: split sep s'
      else match split sep s' with
           | [] => [[c]]
           | w :: ws => (c :: w) :: ws
           end
  end.

(** [l[-1]] on a list of strings; [None] stands for [IndexError]. *)
Definition last_item (l : list pystr) : option pystr := last l.

(** *** [base64.b64encode] *)

(** The standard alphabet: A-Z, a-z, 0-9, plus and slash. *)
Definition b64_char (i : N) : codepoint :=
  (if i <? 26 then 65 + i
   else if i <? 52 then 97 + (i - 26)
   else if i <? 62 then 48 + (i - 52)
   else if i =? 62 then 43
   else 47)%N.

(** The padding character, the equals sign. *)
Definition b64_pad : codepoint := 61%N.

Fixpoint b64encode (bs : list byte) : pystr :=
  match bs with
  | [] => []
  | [a] =>
      let x := Byte.to_N a in
      [ b64_char (N.shiftr x 2);
        b64_char (N.shiftl (N.land x 3) 4);
        b64_pad; b64_pad ]
  | [a; b] =>
      let x := Byte.to_N a in
      let y := Byte.to_N b in
      [ b64_char (N.shiftr x 2);
        b64_char (N.lor (N.shiftl (N.land x 3) 4) (N.shiftr y 4));
        b64_char (N.shiftl (N.land y 15) 2);
        b64_pad ]
  | a :: b :: c :: rest =>
      let x := Byte.to_N a in
      let y := Byte.to_N b in
      let z := Byte.to_N c in
      b64_char (N.shiftr x 2)
      :: b64_char (N.lor (N.shiftl (N.land x 3) 4) (N.shiftr y 4))
      :: b64_char (N.lor (N.shiftl (N.land y 15) 2) (N.shiftr z 6))
      :: b64_char (N.land z 63)
      :: b64encode rest
  end.

End Py.

(** ** Uploaded files and the image records built from them *)

(** What [st.file_uploader] hands to the script for one file: the MIME
    type the browser declared and the bytes [f.read()] returns.  Streamlit
    builds these objects afresh for every execution of the script, so
    [f.read()] always yields the whole content. *)
Record UploadedFile := {
  file_type : option pystr;
  file_bytes : list byte;
}.

(** One element of the [images] comprehension. *)
Record Image := {
  mime_type : pystr;
  data_url : pystr;
}.

(** [f"image/{f.type.split('/')[-1]}" if f.type else "image/png"] *)
Definition image_mime_type (f : UploadedFile) : pystr :=
  match file_type f with
  | Some t =>
      if truthy t then lit "image/" ++ default [] (Py.last_item (Py.split 47%N t))
      else lit "image/png"
  | None => lit "image/png"
  end.

(** [f"data:{f.type};base64,{base64.b64encode(f.read()).decode('utf-8')}"] *)
Definition image_data_url (f : UploadedFile) : pystr :=
  lit "data:" ++ format_opt (file_type f) ++ lit ";base64,"
    ++ Py.b64encode (file_bytes f).

Definition make_image (f : UploadedFile) : Image :=
  {| mime_type := image_mime_type f; data_url := image_data_url f |}.

(** [[... for f in (uploaded or [])]] *)
Definition process_uploads (uploaded : list UploadedFile) : list Image :=
  map make_image uploaded.

(** ** [build_input_parts] *)

(** An element of the [content] list. *)
Inductive Part :=
| InputText (text : pystr)
| InputImage (image_url : pystr).

(** An element of the list the function returns: a message of role
    [user] holding the content list. *)
Record InputItem := InputMessage { content : list Part }.

Definition build_content (text : pystr) (images : list Image) : list Part :=
  (if truthy text && truthy (Py.strip text)
   then [InputText (Py.strip text)] else [])
  ++ map (λ image, InputImage (data_url image)) images.

Definition build_input_parts (text : pystr) (images : list Image) : list InputItem :=
  let content := build_content text images in
  match content with
  | [] => []
  | _ :: _ => [InputMessage content]
  end.

(** The parts a request carries: the content of its messages, in order. *)
Definition parts_of (input : list InputItem) : list Part :=
  concat (map content input).

Definition is_text_part (p : Part) : bool :=
  match p with InputText _ => true | InputImage _ => false end.

Definition is_image_part (p : Part) : bool :=
  match p with InputText _ => false | InputImage _ => true end.

(** ** Exceptions *)

Inductive Result (E A : Type) :=
| Ok (a : A)
| Raise (e : E).
Arguments Ok {E A} a.
Arguments Raise {E A} e.

Definition bind {E A B} (m : Result E A) (k : A → Result E B) : Result E B :=
  match m with
  | Ok a => k a
  | Raise e => Raise e
  end.

Notation "'let*' x ':=' m 'in' k" := (bind m (λ x, k))
  (at level 10, x name, m at level 100, k at level 200).

(** ** The credentials, read at the top of the script *)

(** What the script reads its configuration from: [os.environ] once
    [load_dotenv()] has run, and the Streamlit secrets, absent when no
    secrets file exists.  The entries are strings, and the two maps are
    read as they stand when line 59 is reached: what Streamlit itself
    writes to the environment while it loads the secrets is not part
    of the model. *)
Record Process := {
  environ : gmap string pystr;
  secrets : option (gmap string pystr);
}.

Inductive StartupError :=
| KeyError (key : string)
| FileNotFoundError
| OpenAIError.

(** [st.secrets[key]] *)
Definition secrets_getitem (p : Process) (key : string) : Result StartupError pystr :=
  match secrets p with
  | None => Raise FileNotFoundError
  | Some m =>
      match m !! key with
      | Some v => Ok v
      | None => Raise (KeyError key)
      end
  end.

(** [os.getenv(key) or st.secrets[key]]: the secrets are consulted only
    when the environment has no non-empty value. *)
Definition getenv_or_secret (p : Process) (key : string) : Result StartupError pystr :=
  match environ p !! key with
  | Some v => if truthy v then Ok v else secrets_getitem p key
  | None => secrets_getitem p key
  end.

(** [OpenAI()]: the client refuses to be built only when the variable is
    not in the environment at all, as the 1.x releases of the library
    do; the repository pins no release. *)
Definition OpenAI (env : gmap string pystr) : Result StartupError unit :=
  match env !! "OPENAI_API_KEY"%string with
  | Some _ => Ok tt
  | None => Raise OpenAIError
  end.

Record Config := {
  OPENAI_API_KEY : pystr;
  VECTOR_STORE_ID : pystr;
}.

(** The warning sign followed by its variation selector. *)
Definition warning_sign : pystr := [9888; 65039]%N.

Definition api_key_warning : pystr :=
  warning_sign ++ lit " OpenAI API Key is not set! Please add your OPENAI_API_KEY to the .env file or Streamlit secrets.".

Definition vector_store_warning : pystr :=
  warning_sign ++ lit " Vector Store ID is not set! Please add your VECTOR_STORE_ID to the .env file or Streamlit secrets.".

(** Lines 59 to 80: the configuration and the [st.error] boxes shown,
    or the exception that ends the execution. *)
Definition startup (p : Process) : Result StartupError (Config * list pystr) :=
  let* key := getenv_or_secret p "OPENAI_API_KEY" in
  let* store := getenv_or_secret p "VECTOR_STORE_ID" in
  let* _ := OpenAI (<["OPENAI_API_KEY"%string := key]> (environ p)) in
  Ok ({| OPENAI_API_KEY := key; VECTOR_STORE_ID := store |},
      (if truthy key then [] else [api_key_warning])
      ++ (if truthy store then [] else [vector_store_warning])).

(** ** The system prompt *)

Definition newline : pystr := [10%N].

Definition SYSTEM_PROMPT : pystr :=
  newline ++ concat (map (λ l, lit l ++ newline) [
    "You are an expert AI Career Software Advisor specializing in helping software developers advance their careers. ";
    "You have access to a comprehensive knowledge base through RAG technology and should provide:";
    "";
    "- Personalized career guidance for software developers";
    "- Technical skill recommendations and learning paths";
    "- Industry insights and market trends";
    "- Code review and best practices advice";
    "- Interview preparation and tips";
    "- Resume and portfolio optimization suggestions";
    "- Salary negotiation strategies";
    "- Technology stack recommendations";
    "";
    "Always provide actionable, specific advice tailored to the user's experience level and career goals. ";
    "Use the retrieved documents to support your recommendations with current industry data and best practices.";
    "Be encouraging, professional, and focus on practical steps the user can take to advance their career."
  ]%string).

(** ** Session state *)

(** An element of [st.session_state.messages]. *)
Inductive ChatMessage :=
| UserMessage (text : pystr) (images : list pystr)
| AssistantMessage (content : pystr).

Definition is_user (m : ChatMessage) : bool :=
  match m with UserMessage _ _ => true | AssistantMessage _ => false end.

Module Session.

(** [st.session_state] once the initialisation blocks have run: they
    create each key the first time and leave it alone afterwards. *)
Record t := {
  previous_response_id : option pystr;
  messages : list ChatMessage;
  thread_id : option pystr;
  uploader_key : nat;
}.

(** The state the initialisation blocks create in a new session. *)
Definition fresh : t :=
  {| previous_response_id := None; messages := [];
     thread_id := None; uploader_key := 0 |}.

Definition append (m : ChatMessage) (s : t) : t :=
  {| previous_response_id := previous_response_id s;
     messages := messages s ++ [m];
     thread_id := thread_id s;
     uploader_key := uploader_key s |}.

Definition set_previous_response_id (i : option pystr) (s : t) : t :=
  {| previous_response_id := i;
     messages := messages s;
     thread_id := thread_id s;
     uploader_key := uploader_key s |}.

Definition bump_uploader_key (s : t) : t :=
  {| previous_response_id := previous_response_id s;
     messages := messages s;
     thread_id := thread_id s;
     uploader_key := S (uploader_key s) |}.

(** The body of the Clear Conversation History button. *)
Definition clear (s : t) : t :=
  {| previous_response_id := None;
     messages := [];
     thread_id := thread_id s;
     uploader_key := uploader_key s |}.

End Session.

(** ** The completion endpoint *)

Record Tool := FileSearch { vector_store_ids : list pystr }.

Module Request.

(** The keyword arguments of [client.responses.create]. *)
Record t := {
  model : pystr;
  input : list InputItem;
  tools : list Tool;
  instructions : pystr;
  previous_response_id : option pystr;
}.

End Request.

Module Response.

(** The two attributes of the response object the script reads. *)
Record t := {
  output_text : pystr;
  id : option pystr;
}.

End Response.

(** An exception raised by the call; [str_of] is what [str(e)] prints. *)
Record APIException := { str_of : pystr }.

(** What the endpoint does with the one request an execution sends. *)
Definition Outcome := Result APIException Response.t.

(** The request [call_responses_api] hands to [client.responses.create]. *)
Definition call_responses_api (cfg : Config) (parts : list InputItem)
    (previous_response_id : option pystr) : Request.t :=
  {| Request.model := lit "gpt-5-nano";
     Request.input := parts;
     Request.tools := [FileSearch [VECTOR_STORE_ID cfg]];
     Request.instructions := SYSTEM_PROMPT;
     Request.previous_response_id := previous_response_id |}.

Definition get_text_output (response : Response.t) : pystr :=
  Response.output_text response.

(** [response.id if response.id else None] *)
Definition next_response_id (response : Response.t) : option pystr :=
  if truthy_opt (Response.id response) then Response.id response else None.

(** ** One execution of the script *)

Inductive Role := User | Assistant.

(** The display calls the script makes inside the chat area. *)
Inductive Display :=
| Markdown (role : Role) (text : pystr)
| ShowImage (role : Role) (url : pystr)
| ErrorBox (text : pystr).

Definition is_error (d : Display) : bool :=
  match d with ErrorBox _ => true | _ => false end.

(** What triggered the execution.  A submission comes with the files
    the uploader holds at that moment and with what the endpoint will
    do with the request. *)
Inductive Event :=
| NoInput
| ClearClicked
| ChatSubmitted (chat_input : pystr) (uploaded : list UploadedFile)
    (outcome : Outcome).

Definition is_submission (ev : Event) : bool :=
  match ev with ChatSubmitted _ _ _ => true | _ => false end.

Definition is_clear (ev : Event) : bool :=
  match ev with ClearClicked => true | _ => false end.

Record Run := {
  state : Session.t;
  requests : list Request.t;
  shown : list Display;
  rerun : bool;
}.

(** The loop that displays the chat history. *)
Definition show_message (m : ChatMessage) : list Display :=
  match m with
  | UserMessage text images => Markdown User text :: map (ShowImage User) images
  | AssistantMessage content => [Markdown Assistant content]
  end.

Definition show_history (ms : list ChatMessage) : list Display :=
  concat (map show_message ms).

Section Script.

Variable cfg : Config.

(** The body of [if chat_input is not None:]; [before] is what the
    execution has displayed so far. *)
Definition on_chat_input (s : Session.t) (before : list Display)
    (chat_input : pystr) (uploaded : list UploadedFile)
    (outcome : Outcome) : Run :=
  let images := process_uploads uploaded in
  let parts := build_input_parts chat_input images in
  let image_urls := map data_url images in
  let s1 := Session.append (UserMessage chat_input image_urls) s in
  let shown1 :=
    before ++ Markdown User chat_input :: map (λ image, ShowImage User (data_url image)) images in
  let request := call_responses_api cfg parts (Session.previous_response_id s1) in
  match outcome with
  | Ok response =>
      let ai_response_text := get_text_output response in
      let s2 := Session.set_previous_response_id (next_response_id response) s1 in
      let s3 := Session.append (AssistantMessage ai_response_text) s2 in
      let s4 := Session.bump_uploader_key s3 in
      {| state := s4; requests := [request];
         shown := shown1 ++ [Markdown Assistant ai_response_text];
         rerun := true |}
  | Raise e =>
      {| state := s1; requests := [request];
         shown := shown1 ++ [ErrorBox (lit "An error occurred: " ++ str_of e)];
         rerun := false |}
  end.

(** The script from the sidebar on, for one triggering event. *)
Definition script (s : Session.t) (ev : Event) : Run :=
  match ev with
  | ClearClicked =>
      {| state := Session.clear s; requests := []; shown := []; rerun := true |}
  | NoInput =>
      {| state := s; requests := []; shown := show_history (Session.messages s);
         rerun := false |}
  | ChatSubmitted chat_input uploaded outcome =>
      on_chat_input s (show_history (Session.messages s)) chat_input uploaded outcome
  end.

(** An interaction: the execution the event triggers and, when it ends
    in [st.rerun()], the execution that follows at once with no input;
    the page then shows what that second execution displayed. *)
Definition interact (s : Session.t) (ev : Event) : Run :=
  let r := script s ev in
  if rerun r then
    let r' := script (state r) NoInput in
    {| state := state r'; requests := requests r ++ requests r';
       shown := shown r'; rerun := rerun r' |}
  else r.

(** A session: the interactions in order, with every request sent. *)
Fixpoint session (s : Session.t) (evs : list Event) : Session.t * list Request.t :=
  match evs with
  | [] => (s, [])
  | ev :: evs' =>
      let r := interact s ev in
      let '(s', reqs) := session (state r) evs' in
      (s', requests r ++ reqs)
  end.

End Script.

(** The history and the requests of a session that starts fresh. *)
Definition history (cfg : Config) (evs : list Event) : list ChatMessage :=
  Session.messages (fst (session cfg Session.fresh evs)).

Definition calls (cfg : Config) (evs : list Event) : list Request.t :=
  snd (session cfg Session.fresh evs).

(** The text is empty or consists of white space only. *)
Definition blank (text : pystr) : bool := forallb Py.isspace text.

(** ** Sessions of submissions only *)

Record Submission := {
  sub_text : pystr;
  sub_uploaded : list UploadedFile;
  sub_outcome : Outcome;
}.

Definition submit (x : Submission) : Event :=
  ChatSubmitted (sub_text x) (sub_uploaded x) (sub_outcome x).

Definition answered (x : Submission) : bool :=
  match sub_outcome x with Ok _ => true | Raise _ => false end.

(** The numbers of submissions answered and of submissions on which the
    call raised. *)
Definition successes (xs : list Submission) : nat :=
  length (List.filter answered xs).

Definition failures (xs : list Submission) : nat :=
  length (List.filter (λ x, negb (answered x)) xs).

(** ** Values used in the examples *)

Definition example_cfg : Config :=
  {| OPENAI_API_KEY := lit "sk-test"; VECTOR_STORE_ID := lit "vs_1" |}.

Definition boom : APIException := {| str_of := lit "boom" |}.

Definition reply (text : string) (id : option pystr) : Response.t :=
  {| Response.output_text := lit text; Response.id := id |}.

(** A submission of three spaces with no image, on a call that raises. *)
Definition blank_submission : Event :=
  ChatSubmitted (lit "   ") [] (Raise boom).

(** A first turn that is answered, a turn on which the call raises. *)
Definition answered_turn : Submission :=
  {| sub_text := lit "What skills do I need for a backend role?";
     sub_uploaded := [];
     sub_outcome := Ok (reply "Focus on databases and APIs." (Some (lit "r1"))) |}.

Definition failed_turn : Submission :=
  {| sub_text := lit "Tell me more"; sub_uploaded := []; sub_outcome := Raise boom |}.

(** Files whose declared type is the empty string, and [None]. *)
Definition untyped_file : UploadedFile :=
  {| file_type := Some []; file_bytes := [x68; x69] |}.

Definition typeless_file : UploadedFile :=
  {| file_type := None; file_bytes := [x68; x69] |}.

(** A process with no credential in the environment and only the
    vector store in the secrets. *)
Definition no_api_key : Process :=
  {| environ := ∅;
     secrets := Some {[ "VECTOR_STORE_ID"%string := lit "vs_1" ]} |}.

(** A process whose secrets hold both entries, the key being empty. *)
Definition empty_api_key : Process :=
  {| environ := ∅;
     secrets := Some (<[ "OPENAI_API_KEY"%string := [] ]>
                        {[ "VECTOR_STORE_ID"%string := lit "vs_1" ]}) |}.

(** ** Notions used by the further properties *)

(** The characters of the base64 alphabet, padding excluded. *)
Definition b64_alphabet (c : codepoint) : bool :=
  ((65 <=? c) && (c <=? 90) || (97 <=? c) && (c <=? 122)
   || (48 <=? c) && (c <=? 57) || (c =? 43) || (c =? 47))%N.

(** The number of padding characters after [n] bytes. *)
Definition b64_padding (n : nat) : nat :=
  match n mod 3 with
  | 0 => 0
  | 1 => 2
  | _ => 1
  end.

(** The entry [key] can be found: the environment holds a non-empty
    value, or the secrets file exists and has the entry. *)
Definition provided (p : Process) (key : string) : Prop :=
  truthy_opt (environ p !! key) = true
  ∨ ∃ m, secrets p = Some m ∧ is_Some (m !! key).

(** A [previous_response_id] is never the empty string. *)
Definition proper_id (i : option pystr) : bool :=
  match i with
  | None => true
  | Some i => truthy i
  end.

(** Every assistant message comes right after a user message;
    [after_user] tells whether the message before the list is one. *)
Fixpoint replies_follow_users (after_user : bool) (ms : list ChatMessage) : bool :=
  match ms with
  | [] => true
  | UserMessage _ _ :: ms' => replies_follow_users true ms'
  | AssistantMessage _ :: ms' => after_user && replies_follow_users false ms'
  end.

(** A submission the endpoint answers. *)
Definition is_answered (ev : Event) : bool :=
  match ev with ChatSubmitted _ _ (Ok _) => true | _ => false end.

(** The fields of a request that do not depend on the turn. *)
Definition fixed_fields (cfg : Config) (req : Request.t) : Prop :=
  Request.model req = lit "gpt-5-nano"
  ∧ Request.tools req = [FileSearch [VECTOR_STORE_ID cfg]]
  ∧ Request.instructions req = SYSTEM_PROMPT.

(** A process whose environment holds both values and which has no
    secrets file. *)
Definition env_only : Process :=
  {| environ := <[ "OPENAI_API_KEY"%string := lit "sk-test" ]>
                  {[ "VECTOR_STORE_ID"%string := lit "vs_1" ]};
     secrets := None |}.

(** What a submission contributes to the input of its request. *)
Definition submitted_input (ev : Event) : option (list InputItem) :=
  match ev with
  | ChatSubmitted text uploaded _ =>
      Some (build_input_parts text (process_uploads uploaded))
  | _ => None
  end.

(** The display does not begin with an image. *)
Definition starts_without_image (ds : list Display) : Prop :=
  match ds with
  | ShowImage _ _ :: _ => False
  | _ => True
  end.

(** Quotients and remainders by constants, named so that linear
    arithmetic sees them as unknowns. *)
Ltac name_div_mod :=
  repeat match goal with
         | H : context [N.div ?a ?b] |- _ => generalize dependent (N.div a b); intros
         | H : context [N.modulo ?a ?b] |- _ => generalize dependent (N.modulo a b); intros
         | |- context [N.div ?a ?b] => generalize dependent (N.div a b); intros
         | |- context [N.modulo ?a ?b] => generalize dependent (N.modulo a b); intros
         end.

Ltac div_mod_facts x :=
  pose proof (N.div_mod' x 4); pose proof (N.div_mod' x 16);
  pose proof (N.div_mod' x 64);
  assert (x mod 4 < 4)%N by (by apply N.mod_lt);
  assert (x mod 16 < 16)%N by (by apply N.mod_lt);
  assert (x mod 64 < 64)%N by (by apply N.mod_lt).

(** * Properties *)

(** ** Trimming *)

Lemma lstrip_blank (s : pystr) : blank s = true → Py.lstrip s = [].
Proof.
  induction s as [|c s IH]; simpl; [done|].
  intros [Hc Hs]%andb_prop. rewrite Hc. auto.
Qed.

Lemma lstrip_nil_blank (s : pystr) : Py.lstrip s = [] → blank s = true.
Proof.
  induction s as [|c s IH]; simpl; [done|].
  destruct (Py.isspace c); [auto | discriminate].
Qed.

Lemma blank_lstrip (s : pystr) : blank (Py.lstrip s) = true → blank s = true.
Proof.
  induction s as [|c s IH]; simpl; [done|].
  destruct (Py.isspace c) eqn:Hc; simpl; [auto|].
  rewrite Hc. discriminate.
Qed.

Lemma blank_rev (s : pystr) : blank (rev s) = blank s.
Proof.
  unfold blank. induction s as [|c s IH]; simpl; [done|].
  rewrite forallb_app, IH. simpl. rewrite andb_true_r. apply andb_comm.
Qed.

(** Trimming leaves nothing exactly when the text is blank. *)
Lemma strip_nil_iff_blank (s : pystr) : Py.strip s = [] ↔ blank s = true.
Proof.
  unfold Py.strip, Py.rstrip. split.
  - intros H. apply blank_lstrip. rewrite <- blank_rev.
    apply lstrip_nil_blank.
    apply (f_equal (@rev codepoint)) in H. by rewrite rev_involutive in H.
  - intros H. by rewrite (lstrip_blank s H).
Qed.

(** In [text and text.strip()] the second operand decides. *)
Lemma truthy_and_strip (text : pystr) :
  truthy text && truthy (Py.strip text) = truthy (Py.strip text).
Proof. by destruct text. Qed.

(** ** The assembled parts *)

Lemma build_content_eq (text : pystr) (images : list Image) :
  build_content text images =
    (if truthy (Py.strip text) then [InputText (Py.strip text)] else [])
    ++ map (λ image, InputImage (data_url image)) images.
Proof. unfold build_content. by rewrite truthy_and_strip. Qed.

(** Wrapping the content in one message, or in none when it is empty,
    keeps the parts. *)
Lemma parts_of_build_input_parts (text : pystr) (images : list Image) :
  parts_of (build_input_parts text images) = build_content text images.
Proof.
  unfold build_input_parts, parts_of.
  destruct (build_content text images); simpl; [done|].
  by rewrite app_nil_r.
Qed.

Lemma filter_text_images (images : list Image) :
  List.filter is_text_part (map (λ image, InputImage (data_url image)) images) = [].
Proof. induction images; simpl; auto. Qed.

Lemma filter_image_images (images : list Image) :
  List.filter is_image_part (map (λ image, InputImage (data_url image)) images)
  = map (λ image, InputImage (data_url image)) images.
Proof. induction images; simpl; [done|]. by f_equal. Qed.

(** The text parts of the list: the trimmed text, when there is one. *)
Lemma text_parts_of_build_input_parts (text : pystr) (images : list Image) :
  List.filter is_text_part (parts_of (build_input_parts text images)) =
    (if truthy (Py.strip text) then [InputText (Py.strip text)] else []).
Proof.
  rewrite parts_of_build_input_parts, build_content_eq.
  rewrite List.filter_app, filter_text_images, app_nil_r.
  by destruct (truthy (Py.strip text)).
Qed.

(** ** What an interaction keeps of the execution it starts with *)

Lemma interact_state cfg s ev : state (interact cfg s ev) = state (script cfg s ev).
Proof. unfold interact. by destruct (rerun (script cfg s ev)). Qed.

Lemma interact_requests cfg s ev :
  requests (interact cfg s ev) = requests (script cfg s ev).
Proof.
  unfold interact. destruct (rerun (script cfg s ev)); simpl; [|done].
  by rewrite app_nil_r.
Qed.

Lemma show_history_no_error (ms : list ChatMessage) :
  List.filter is_error (show_history ms) = [].
Proof.
  unfold show_history. induction ms as [|m ms IH]; simpl; [done|].
  rewrite List.filter_app, IH, app_nil_r.
  destruct m as [text images|c]; simpl; [|done].
  induction images; simpl; auto.
Qed.

Lemma show_images_no_error (images : list Image) :
  List.filter is_error (map (λ image, ShowImage User (data_url image)) images) = [].
Proof. induction images; simpl; auto. Qed.

(** Nothing the handler displays before the call is an error box. *)
Lemma shown_before_call_no_error ms (text : pystr) (images : list Image) :
  List.filter is_error
    (show_history ms ++
     Markdown User text :: map (λ image, ShowImage User (data_url image)) images)
  = [].
Proof.
  rewrite List.filter_app, show_history_no_error. simpl.
  apply show_images_no_error.
Qed.

(** ** Empty submissions *)

(** C1, as the script behaves: a blank text with no image gives an
    empty part list, and the handler still stores the user message and
    sends one request, with an empty input and the current
    [previous_response_id]; what the endpoint does with it is handled
    as on any other turn. *)
Theorem C1_blank_submission_is_sent cfg s text outcome :
  blank text = true →
  let r := interact cfg s (ChatSubmitted text [] outcome) in
  build_input_parts text (process_uploads []) = []
  ∧ requests r = [call_responses_api cfg [] (Session.previous_response_id s)]
  ∧ Session.messages (state r) =
      Session.messages s ++ UserMessage text [] ::
        match outcome with
        | Ok response => [AssistantMessage (Response.output_text response)]
        | Raise _ => []
        end
  ∧ List.filter is_error (shown r) =
      match outcome with
      | Ok _ => []
      | Raise e => [ErrorBox (lit "An error occurred: " ++ str_of e)]
      end.
Proof.
  intros Hblank r.
  assert (Hparts : build_input_parts text (process_uploads []) = []).
  { unfold build_input_parts. rewrite build_content_eq.
    apply strip_nil_iff_blank in Hblank. by rewrite Hblank. }
  split; [exact Hparts|].
  subst r. rewrite interact_requests, interact_state.
  unfold interact, script, on_chat_input. rewrite Hparts.
  destruct outcome as [response|e]; cbn [rerun state requests shown].
  - repeat split.
    + unfold Session.append; cbn. by rewrite <- app_assoc.
    + unfold script. apply show_history_no_error.
  - repeat split.
    by rewrite List.filter_app, shown_before_call_no_error.
Qed.

Lemma C1_blank_submission_is_sent_witness :
  blank (lit "   ") = true
  ∧ requests (interact example_cfg Session.fresh blank_submission)
    = [call_responses_api example_cfg [] None].
Proof.
  split; [reflexivity|].
  apply (C1_blank_submission_is_sent example_cfg Session.fresh (lit "   ")
           (Raise boom)).
  reflexivity.
Defined.

(** C1 as stated fails: three spaces and no image, on a call that
    raises, make the handler send a request, show an error and keep
    the message in the history. *)
Lemma C1_counterexample :
  blank (lit "   ") = true
  ∧ requests (interact example_cfg Session.fresh blank_submission)
    = [call_responses_api example_cfg [] None]
  ∧ List.filter is_error (shown (interact example_cfg Session.fresh blank_submission))
    = [ErrorBox (lit "An error occurred: boom")]
  ∧ Session.messages (state (interact example_cfg Session.fresh blank_submission))
    = [UserMessage (lit "   ") []]
  ∧ ¬ (requests (interact example_cfg Session.fresh blank_submission) = []
       ∧ List.filter is_error (shown (interact example_cfg Session.fresh blank_submission)) = []
       ∧ state (interact example_cfg Session.fresh blank_submission) = Session.fresh).
Proof.
  repeat split; try reflexivity.
  intros (H & _). discriminate H.
Qed.

(** ** What trimming removes *)

Lemma lstrip_split (s : pystr) :
  ∃ a, s = a ++ Py.lstrip s ∧ blank a = true.
Proof.
  induction s as [|c s (a & Hs & Ha)]; [by exists []|]. simpl.
  destruct (Py.isspace c) eqn:Hc.
  - exists (c :: a). simpl. rewrite Hc, Ha. split; [by f_equal | done].
  - by exists [].
Qed.

Lemma lstrip_head (s : pystr) (c : codepoint) :
  head (Py.lstrip s) = Some c → Py.isspace c = false.
Proof.
  induction s as [|d s IH]; simpl; [done|].
  destruct (Py.isspace d) eqn:Hd; [done|]. simpl. by intros [= <-].
Qed.

Lemma lstrip_fixed (s : pystr) :
  (∀ c, head s = Some c → Py.isspace c = false) → Py.lstrip s = s.
Proof.
  destruct s as [|c s]; [done|]. intros H. simpl. by rewrite (H c).
Qed.

Lemma head_rev (s : pystr) : head (rev s) = last s.
Proof.
  induction s as [|c s IH]; [done|]. simpl.
  destruct s as [|d s]; [done|].
  rewrite last_cons_cons, <- IH. simpl. by destruct (rev s).
Qed.

Lemma rstrip_split (s : pystr) :
  ∃ b, s = Py.rstrip s ++ b ∧ blank b = true.
Proof.
  unfold Py.rstrip. destruct (lstrip_split (rev s)) as (a & Hs & Ha).
  exists (rev a). rewrite blank_rev. split; [|done].
  rewrite <- rev_app_distr, <- Hs. by rewrite rev_involutive.
Qed.

Lemma rstrip_last (s : pystr) (c : codepoint) :
  last (Py.rstrip s) = Some c → Py.isspace c = false.
Proof.
  unfold Py.rstrip. rewrite <- head_rev, rev_involutive. apply lstrip_head.
Qed.

Lemma rstrip_fixed (s : pystr) :
  (∀ c, last s = Some c → Py.isspace c = false) → Py.rstrip s = s.
Proof.
  intros H. unfold Py.rstrip. rewrite lstrip_fixed; [apply rev_involutive|].
  intros c. rewrite head_rev. apply H.
Qed.

Lemma strip_split (s : pystr) :
  ∃ a b, s = a ++ Py.strip s ++ b ∧ blank a = true ∧ blank b = true.
Proof.
  unfold Py.strip. destruct (lstrip_split s) as (a & Hs & Ha).
  destruct (rstrip_split (Py.lstrip s)) as (b & Ht & Hb).
  exists a, b. by rewrite <- Ht.
Qed.

Lemma strip_head (s : pystr) (c : codepoint) :
  head (Py.strip s) = Some c → Py.isspace c = false.
Proof.
  unfold Py.strip. destruct (rstrip_split (Py.lstrip s)) as (b & Ht & _).
  intros Hc. apply (lstrip_head s). rewrite Ht.
  destruct (Py.rstrip (Py.lstrip s)); [done|]. exact Hc.
Qed.

Lemma strip_last (s : pystr) (c : codepoint) :
  last (Py.strip s) = Some c → Py.isspace c = false.
Proof. apply rstrip_last. Qed.

Lemma strip_strip (s : pystr) : Py.strip (Py.strip s) = Py.strip s.
Proof.
  unfold Py.strip at 1.
  rewrite (lstrip_fixed (Py.strip s)) by apply strip_head.
  apply rstrip_fixed, strip_last.
Qed.

(** ** The part list *)

(** C2: the parts are the trimmed text, once and first, exactly when it
    is not empty, then one image part per image in upload order; a text
    with no image gives the text part alone.  The trimmed text is told
    apart from the submitted one by what it is: a blank text gives no
    text part, and any other text gives one part, not empty, with no
    white space at either end, which is the submitted text less white
    space at its two ends. *)
Theorem C2_parts_text_then_images (text : pystr) (uploaded : list UploadedFile) :
  let images := process_uploads uploaded in
  let parts := parts_of (build_input_parts text images) in
  parts = (if truthy (Py.strip text) then [InputText (Py.strip text)] else [])
          ++ map (λ image, InputImage (data_url image)) images
  ∧ List.filter is_text_part parts =
      (if truthy (Py.strip text) then [InputText (Py.strip text)] else [])
  ∧ List.filter is_image_part parts = map (λ f, InputImage (image_data_url f)) uploaded
  ∧ length (List.filter is_image_part parts) = length uploaded
  ∧ parts_of (build_input_parts text []) =
      (if truthy (Py.strip text) then [InputText (Py.strip text)] else [])
  ∧ (if blank text
     then parts = map (λ f, InputImage (image_data_url f)) uploaded
          ∧ parts_of (build_input_parts text []) = []
     else ∃ t a b,
            parts = InputText t :: map (λ f, InputImage (image_data_url f)) uploaded
            ∧ parts_of (build_input_parts text []) = [InputText t]
            ∧ text = a ++ t ++ b
            ∧ blank a = true ∧ blank b = true
            ∧ t ≠ []
            ∧ (∀ c, head t = Some c → Py.isspace c = false)
            ∧ (∀ c, last t = Some c → Py.isspace c = false)).
Proof.
  intros images parts. subst parts.
  rewrite !parts_of_build_input_parts, !build_content_eq. simpl.
  rewrite !List.filter_app, filter_text_images, filter_image_images.
  assert (Himg : map (λ image, InputImage (data_url image)) images
                 = map (λ f, InputImage (image_data_url f)) uploaded).
  { subst images. unfold process_uploads. by rewrite map_map. }
  rewrite !Himg, !app_nil_r.
  split; [done|].
  split; [by destruct (truthy (Py.strip text))|].
  split; [by destruct (truthy (Py.strip text))|].
  split; [destruct (truthy (Py.strip text)); simpl; by rewrite length_map|].
  split; [done|].
  destruct (blank text) eqn:Hblank.
  - apply strip_nil_iff_blank in Hblank. by rewrite Hblank.
  - destruct (strip_split text) as (a & b & Htext & Ha & Hb).
    pose proof (strip_head text) as Hhead.
    pose proof (strip_last text) as Hlast.
    destruct (Py.strip text) as [|c t] eqn:Hstrip.
    + apply strip_nil_iff_blank in Hstrip. congruence.
    + exists (c :: t), a, b. simpl truthy. cbv iota.
      repeat split; try done.
Qed.

(** ** Data URLs *)

(** The encoder on the test vectors of RFC 4648. *)
Example b64encode_rfc4648 :
  Py.b64encode [] = lit ""
  ∧ Py.b64encode [x66] = lit "Zg=="
  ∧ Py.b64encode [x66; x6f] = lit "Zm8="
  ∧ Py.b64encode [x66; x6f; x6f] = lit "Zm9v"
  ∧ Py.b64encode [x66; x6f; x6f; x62] = lit "Zm9vYg=="
  ∧ Py.b64encode [x66; x6f; x6f; x62; x61] = lit "Zm9vYmE="
  ∧ Py.b64encode [x66; x6f; x6f; x62; x61; x72] = lit "Zm9vYmFy".
Proof. repeat split. Qed.

(** Every three bytes, complete or not, give four characters. *)
Lemma b64encode_length (bs : list byte) :
  length (Py.b64encode bs) = 4 * ((length bs + 2) / 3).
Proof.
  assert (H : ∀ n (l : list byte), length l ≤ n →
              length (Py.b64encode l) = 4 * ((length l + 2) / 3)).
  { induction n as [|n IH]; intros l Hl.
    - destruct l; [done | simpl in Hl; lia].
    - destruct l as [|a [|b [|c rest]]]; try done.
      cbn [Py.b64encode length]. rewrite IH by (simpl in Hl; lia).
      replace (S (S (S (length rest))) + 2) with (length rest + 2 + 1 * 3) by lia.
      rewrite Nat.div_add by lia. lia. }
  by apply (H (length bs)).
Qed.

(** With a declared type the URL has the expected form, and every image
    part carries the URL of its file. *)
Lemma data_url_declared (f : UploadedFile) (t : pystr) :
  file_type f = Some t →
  data_url (make_image f) = lit "data:" ++ t ++ lit ";base64," ++ Py.b64encode (file_bytes f).
Proof. intros H. simpl. unfold image_data_url. by rewrite H. Qed.

(** The default type goes into [mime_type] only. *)
Lemma mime_type_default (f : UploadedFile) :
  truthy_opt (file_type f) = false → mime_type (make_image f) = lit "image/png".
Proof.
  intros H. simpl. unfold image_mime_type.
  destruct (file_type f) as [t|]; [|done]. simpl in H. by rewrite H.
Qed.

(** C3 at a file with no declared type: [mime_type] takes the default
    [image/png], while the data URL is built from the declared type
    itself and so names no type (empty string) or the text None. *)
Theorem C3_data_url_without_type :
  mime_type (make_image untyped_file) = lit "image/png"
  ∧ data_url (make_image untyped_file) = lit "data:;base64,aGk="
  ∧ mime_type (make_image typeless_file) = lit "image/png"
  ∧ data_url (make_image typeless_file) = lit "data:None;base64,aGk="
  ∧ parts_of (build_input_parts [] (process_uploads [untyped_file]))
    = [InputImage (lit "data:;base64,aGk=")].
Proof. repeat split. Qed.

(** ** A call that raises *)

(** C4: when the call raises, one error box is shown, the history gains
    the user message and nothing else, and [previous_response_id] keeps
    its value. *)
Theorem C4_failed_call cfg s text uploaded e :
  let r := interact cfg s (ChatSubmitted text uploaded (Raise e)) in
  List.filter is_error (shown r) = [ErrorBox (lit "An error occurred: " ++ str_of e)]
  ∧ Session.messages (state r) =
      Session.messages s ++ [UserMessage text (map image_data_url uploaded)]
  ∧ List.filter (λ m, negb (is_user m)) (Session.messages (state r)) =
      List.filter (λ m, negb (is_user m)) (Session.messages s)
  ∧ Session.previous_response_id (state r) = Session.previous_response_id s
  ∧ state r = Session.append (UserMessage text (map image_data_url uploaded)) s.
Proof.
  intros r. subst r. unfold interact, script, on_chat_input.
  cbn [rerun state requests shown].
  assert (Hurls : map data_url (process_uploads uploaded) = map image_data_url uploaded).
  { unfold process_uploads. by rewrite map_map. }
  rewrite Hurls. repeat split.
  - by rewrite List.filter_app, shown_before_call_no_error.
  - cbn. by rewrite List.filter_app, app_nil_r.
Qed.

(** ** Clearing the history *)

(** C6: the button empties the history and forgets the identifier in
    one step, sends nothing, and pressing it again changes nothing. *)
Theorem C6_clear_resets cfg s :
  let r := interact cfg s ClearClicked in
  Session.messages (state r) = []
  ∧ Session.previous_response_id (state r) = None
  ∧ requests r = []
  ∧ state (interact cfg (state r) ClearClicked) = state r
  ∧ Session.messages (state (interact cfg Session.fresh ClearClicked)) = []
  ∧ Session.previous_response_id (state (interact cfg Session.fresh ClearClicked)) = None.
Proof. repeat split. Qed.

(** ** A response without identifier *)

(** C8: a response whose identifier is missing, or empty, is accepted
    like any other: no error box, the assistant message is stored, and
    [previous_response_id] becomes [None], which is what the next
    request carries. *)
Theorem C8_response_without_id cfg s text uploaded out text' uploaded' outcome' :
  let no_id := {| Response.output_text := out; Response.id := None |} in
  let empty_id := {| Response.output_text := out; Response.id := Some [] |} in
  let r := interact cfg s (ChatSubmitted text uploaded (Ok no_id)) in
  let r0 := interact cfg s (ChatSubmitted text uploaded (Ok empty_id)) in
  Session.previous_response_id (state r) = None
  ∧ List.filter is_error (shown r) = []
  ∧ Session.messages (state r) =
      Session.messages s ++
        [UserMessage text (map image_data_url uploaded); AssistantMessage out]
  ∧ map Request.previous_response_id
      (requests (interact cfg (state r) (ChatSubmitted text' uploaded' outcome')))
    = [None]
  ∧ state r0 = state r.
Proof.
  intros no_id empty_id r r0. subst r r0.
  rewrite !interact_requests, !interact_state.
  unfold interact, script, on_chat_input. cbn [rerun state requests shown].
  assert (Hurls : map data_url (process_uploads uploaded) = map image_data_url uploaded).
  { unfold process_uploads. by rewrite map_map. }
  rewrite Hurls. repeat split.
  - apply show_history_no_error.
  - cbn. by rewrite <- app_assoc.
  - by destruct outcome'.
Qed.

(** ** Sessions *)

Lemma session_app cfg s (evs evs' : list Event) :
  session cfg s (evs ++ evs') =
    (fst (session cfg (fst (session cfg s evs)) evs'),
     snd (session cfg s evs) ++ snd (session cfg (fst (session cfg s evs)) evs')).
Proof.
  revert s. induction evs as [|ev evs IH]; intros s; simpl.
  - by destruct (session cfg s evs').
  - rewrite IH.
    destruct (session cfg (state (interact cfg s ev)) evs) as [s1 reqs1]; simpl.
    by rewrite app_assoc.
Qed.

Lemma session_cons cfg s ev (evs : list Event) :
  session cfg s (ev :: evs) =
    (fst (session cfg (state (script cfg s ev)) evs),
     requests (script cfg s ev) ++ snd (session cfg (state (script cfg s ev)) evs)).
Proof.
  simpl. rewrite interact_state, interact_requests.
  by destruct (session cfg (state (script cfg s ev)) evs).
Qed.

(** Between two submissions nothing is sent, and the identifier is kept
    unless the history is cleared. *)
Lemma session_without_submission cfg s (evs : list Event) :
  existsb is_submission evs = false →
  snd (session cfg s evs) = []
  ∧ Session.previous_response_id (fst (session cfg s evs)) =
      (if existsb is_clear evs then None else Session.previous_response_id s).
Proof.
  revert s. induction evs as [|ev evs IH]; intros s H; [done|].
  rewrite session_cons. simpl in H. apply orb_false_elim in H as [Hev Hevs].
  destruct ev as [| |t u o]; [| |discriminate Hev]; cbn [fst snd script state requests].
  - destruct (IH s Hevs) as [-> ->]. done.
  - destruct (IH (Session.clear s) Hevs) as [-> ->]. simpl.
    by destruct (existsb is_clear evs).
Qed.

Lemma next_response_id_some (response : Response.t) (i : pystr) :
  Response.id response = Some i → i ≠ [] → next_response_id response = Some i.
Proof.
  intros Hid Hi. unfold next_response_id. rewrite Hid. simpl.
  by destruct i.
Qed.

(** C5: of two consecutive calls of a session, the second carries as
    [previous_response_id] the identifier the script took from the
    response to the first, and carries none when the history was
    cleared in between. *)
Theorem C5_token_round_trip cfg pre text uploaded response mid text' uploaded' outcome' :
  existsb is_submission mid = false →
  ∃ req req',
    calls cfg (pre ++ ChatSubmitted text uploaded (Ok response)
                   :: mid ++ [ChatSubmitted text' uploaded' outcome'])
    = calls cfg pre ++ [req; req']
    ∧ Request.previous_response_id req' =
        (if existsb is_clear mid then None else next_response_id response)
    ∧ (∀ i, Response.id response = Some i → i ≠ [] →
            existsb is_clear mid = false →
            Request.previous_response_id req' = Some i).
Proof.
  intros Hmid. unfold calls.
  rewrite session_app. cbn [snd].
  set (s := fst (session cfg Session.fresh pre)).
  rewrite session_cons. cbn [snd].
  set (s1 := state (script cfg s (ChatSubmitted text uploaded (Ok response)))).
  rewrite session_app. cbn [snd].
  destruct (session_without_submission cfg s1 mid Hmid) as [Hreqs Hprev].
  rewrite Hreqs. set (s2 := fst (session cfg s1 mid)) in *.
  rewrite session_cons. cbn [snd session].
  assert (Hreq' : requests (script cfg s2 (ChatSubmitted text' uploaded' outcome'))
    = [call_responses_api cfg (build_input_parts text' (process_uploads uploaded'))
         (Session.previous_response_id s2)]).
  { simpl. unfold on_chat_input. by destruct outcome'. }
  rewrite Hreq'. eexists _, _. split; [reflexivity|].
  cbn [Request.previous_response_id call_responses_api].
  rewrite Hprev. subst s1. cbn.
  split; [done|].
  intros i Hid Hi ->. by apply next_response_id_some.
Qed.

Lemma C5_token_round_trip_witness :
  ∃ req req',
    calls example_cfg
      ([] ++ ChatSubmitted (lit "What skills do I need for a backend role?") []
               (Ok (reply "Focus on databases and APIs." (Some (lit "r1"))))
          :: [NoInput] ++ [ChatSubmitted (lit "Tell me more") [] (Raise boom)])
    = calls example_cfg [] ++ [req; req']
    ∧ Request.previous_response_id req' = Some (lit "r1").
Proof.
  destruct (C5_token_round_trip example_cfg []
              (lit "What skills do I need for a backend role?") []
              (reply "Focus on databases and APIs." (Some (lit "r1")))
              [NoInput] (lit "Tell me more") [] (Raise boom))
    as (req & req' & Hcalls & Hprev & _); [reflexivity|].
  exists req, req'. split; [exact Hcalls | exact Hprev].
Defined.

(** ** The length of the history *)

(** An answered submission adds two messages, one on which the call
    raises adds one. *)
Lemma submission_length cfg s (x : Submission) :
  length (Session.messages (state (script cfg s (submit x)))) =
    length (Session.messages s) + (if answered x then 2 else 1).
Proof.
  destruct x as [text uploaded [response|e]]; unfold submit, answered; simpl.
  - rewrite !length_app. simpl. lia.
  - rewrite length_app. simpl. lia.
Qed.

Lemma session_length cfg s (xs : list Submission) :
  length (Session.messages (fst (session cfg s (map submit xs)))) =
    length (Session.messages s) + 2 * successes xs + failures xs.
Proof.
  revert s. unfold successes, failures.
  induction xs as [|x xs IH]; intros s; [simpl; lia|].
  rewrite map_cons, session_cons. cbn [fst].
  rewrite IH, submission_length. simpl.
  destruct (answered x); simpl; lia.
Qed.

Lemma successes_all (xs : list Submission) :
  forallb answered xs = true → successes xs = length xs ∧ failures xs = 0.
Proof.
  unfold successes, failures. induction xs as [|x xs IH]; simpl; [done|].
  intros [Hx Hxs]%andb_prop. rewrite Hx. simpl.
  destruct (IH Hxs) as [-> ->]. done.
Qed.

(** C7, as the script behaves: a session of submissions leaves two
    messages per answered submission and one per failed call; so [N]
    answered submissions leave [2N], and one more submission on which
    the call raises leaves [2N+1]. *)
Theorem C7_history_length cfg (xs : list Submission) :
  length (history cfg (map submit xs)) = 2 * successes xs + failures xs
  ∧ (forallb answered xs = true →
     length (history cfg (map submit xs)) = 2 * length xs
     ∧ ∀ text uploaded e,
         length (history cfg (map submit xs ++ [ChatSubmitted text uploaded (Raise e)]))
         = 2 * length xs + 1).
Proof.
  unfold history. split.
  - rewrite session_length. simpl. lia.
  - intros Hall. destruct (successes_all xs Hall) as [Hs Hf]. split.
    + rewrite session_length, Hs, Hf. simpl. lia.
    + intros text uploaded e. rewrite session_app. cbn [fst].
      rewrite session_cons. cbn [fst session script].
      unfold on_chat_input. cbn [state Session.append Session.messages].
      rewrite length_app, session_length, Hs, Hf. simpl. lia.
Qed.

Lemma C7_history_length_witness :
  forallb answered [answered_turn] = true
  ∧ length (history example_cfg (map submit [answered_turn])) = 2
  ∧ length (history example_cfg
              (map submit [answered_turn]
               ++ [ChatSubmitted (lit "Tell me more") [] (Raise boom)])) = 3.
Proof.
  destruct (C7_history_length example_cfg [answered_turn]) as [_ H].
  destruct (H eq_refl) as [H2 H3].
  split; [reflexivity|]. split; [exact H2|].
  exact (H3 (lit "Tell me more") [] boom).
Defined.

(** C7 as stated fails: in a session whose first call raises, is then
    answered, and raises again, the second failure leaves four messages,
    neither [2k+1] for [k = 2] failures nor for [k = 1] answered
    submission; and a first submission that fails leaves one message,
    not three. *)
Lemma C7_counterexample :
  failures [failed_turn] = 1
  ∧ length (history example_cfg (map submit [failed_turn])) = 1
  ∧ length (history example_cfg (map submit [failed_turn]))
    ≠ 2 * failures [failed_turn] + 1
  ∧ failures [failed_turn; answered_turn; failed_turn] = 2
  ∧ successes [failed_turn; answered_turn; failed_turn] = 1
  ∧ length (history example_cfg (map submit [failed_turn; answered_turn; failed_turn])) = 4
  ∧ length (history example_cfg (map submit [failed_turn; answered_turn; failed_turn]))
    ≠ 2 * failures [failed_turn; answered_turn; failed_turn] + 1.
Proof. repeat split; try reflexivity; discriminate. Qed.

(** ** Raw and trimmed text *)

(** C10: the history stores the text as submitted, the request carries
    it trimmed, and the two differ as soon as the text has white space
    around it. *)
Theorem C10_history_raw_request_trimmed :
  (∀ cfg s text uploaded outcome,
     let r := interact cfg s (ChatSubmitted text uploaded outcome) in
     (∃ rest, Session.messages (state r) =
                Session.messages s
                ++ UserMessage text (map image_data_url uploaded) :: rest)
     ∧ ∃ req, requests r = [req]
         ∧ List.filter is_text_part (parts_of (Request.input req)) =
             (if truthy (Py.strip text) then [InputText (Py.strip text)] else []))
  ∧ (let r := interact example_cfg Session.fresh
                (ChatSubmitted (lit "  hello ") [] (Raise boom)) in
     Session.messages (state r) = [UserMessage (lit "  hello ") []]
     ∧ map (λ req, parts_of (Request.input req)) (requests r)
       = [[InputText (lit "hello")]]
     ∧ lit "  hello " ≠ lit "hello").
Proof.
  split.
  - intros cfg s text uploaded outcome r. subst r.
    rewrite interact_requests, interact_state.
    assert (Hurls : map data_url (process_uploads uploaded) = map image_data_url uploaded).
    { unfold process_uploads. by rewrite map_map. }
    split.
    + unfold script, on_chat_input. rewrite Hurls.
      destruct outcome as [response|e]; cbn.
      * eexists. by rewrite <- app_assoc.
      * by eexists.
    + exists (call_responses_api cfg
                (build_input_parts text (process_uploads uploaded))
                (Session.previous_response_id s)).
      split.
      * unfold script, on_chat_input. by destruct outcome.
      * cbn [Request.input call_responses_api].
        apply text_parts_of_build_input_parts.
  - cbv zeta. repeat split; discriminate.
Qed.

(** ** Start-up *)

(** A variable that is unset or empty sends the lookup to the secrets. *)
Lemma getenv_falls_back (p : Process) (key : string) :
  truthy_opt (environ p !! key) = false →
  getenv_or_secret p key = secrets_getitem p key.
Proof.
  intros H. unfold getenv_or_secret.
  destruct (environ p !! key) as [v|]; [|done]. simpl in H. by rewrite H.
Qed.

(** A credential found neither in the environment nor in the secrets
    ends the execution at the lookup. *)
Lemma startup_without_api_key (p : Process) (m : gmap string pystr) :
  truthy_opt (environ p !! "OPENAI_API_KEY"%string) = false →
  secrets p = Some m →
  m !! "OPENAI_API_KEY"%string = None →
  startup p = Raise (KeyError "OPENAI_API_KEY").
Proof.
  intros Henv Hsec Hkey.
  assert (Hget : getenv_or_secret p "OPENAI_API_KEY" = Raise (KeyError "OPENAI_API_KEY")).
  { rewrite (getenv_falls_back p _ Henv). unfold secrets_getitem.
    by rewrite Hsec, Hkey. }
  unfold startup. by rewrite Hget.
Qed.

Lemma startup_without_vector_store (p : Process) (m : gmap string pystr) (key : pystr) :
  getenv_or_secret p "OPENAI_API_KEY" = Ok key →
  truthy_opt (environ p !! "VECTOR_STORE_ID"%string) = false →
  secrets p = Some m →
  m !! "VECTOR_STORE_ID"%string = None →
  startup p = Raise (KeyError "VECTOR_STORE_ID").
Proof.
  intros Hkey Henv Hsec Hstore. unfold startup. rewrite Hkey. simpl.
  rewrite (getenv_falls_back p _ Henv). unfold secrets_getitem.
  by rewrite Hsec, Hstore.
Qed.

Lemma startup_without_secrets_file (p : Process) :
  truthy_opt (environ p !! "OPENAI_API_KEY"%string) = false →
  secrets p = None →
  startup p = Raise FileNotFoundError.
Proof.
  intros Henv Hsec. unfold startup.
  rewrite (getenv_falls_back p _ Henv). unfold secrets_getitem.
  by rewrite Hsec.
Qed.

(** When start-up completes, the warnings shown are those of the values
    that are empty, each once. *)
Lemma startup_warnings (p : Process) (cfg : Config) (warnings : list pystr) :
  startup p = Ok (cfg, warnings) →
  warnings =
    (if truthy (OPENAI_API_KEY cfg) then [] else [api_key_warning])
    ++ (if truthy (VECTOR_STORE_ID cfg) then [] else [vector_store_warning]).
Proof.
  unfold startup.
  destruct (getenv_or_secret p "OPENAI_API_KEY") as [key|e]; [|discriminate].
  destruct (getenv_or_secret p "VECTOR_STORE_ID") as [store|e]; [|discriminate].
  simpl. destruct (OpenAI _); [|discriminate]. simpl.
  intros [= <- <-]. done.
Qed.

(** C9 at a process with no API key at all: the lookup in the secrets
    raises and the execution stops before any warning is shown.  Only a
    key that is present and empty reaches the warning. *)
Theorem C9_startup_without_api_key :
  startup no_api_key = Raise (KeyError "OPENAI_API_KEY")
  ∧ startup empty_api_key =
      Ok ({| OPENAI_API_KEY := []; VECTOR_STORE_ID := lit "vs_1" |}, [api_key_warning]).
Proof.
  split.
  - by apply (startup_without_api_key no_api_key
                {[ "VECTOR_STORE_ID"%string := lit "vs_1" ]}).
  - unfold startup, getenv_or_secret, secrets_getitem, empty_api_key. simpl.
    rewrite lookup_empty. simpl.
    rewrite lookup_insert_eq. simpl.
    rewrite lookup_empty. simpl.
    rewrite lookup_insert_ne by done. rewrite lookup_singleton_eq. simpl.
    unfold OpenAI. rewrite lookup_insert_eq. done.
Qed.

(** * Further properties of the script *)

(** X1: the function returns the empty list exactly when the text is
    blank and there is no image; otherwise it returns one message, and
    that message never has an empty content. *)
Theorem X1_empty_input_iff_blank (text : pystr) (images : list Image) :
  (build_input_parts text images = [] ↔ blank text = true ∧ images = [])
  ∧ length (build_input_parts text images) ≤ 1
  ∧ Forall (λ item, content item ≠ []) (build_input_parts text images).
Proof.
  unfold build_input_parts. rewrite build_content_eq.
  split; [|split].
  - rewrite <- strip_nil_iff_blank. split.
    + destruct (Py.strip text); simpl; [|done].
      destruct images; [done|discriminate].
    + intros [-> ->]. done.
  - destruct (truthy (Py.strip text)); simpl; [lia|].
    destruct images; simpl; lia.
  - destruct (truthy (Py.strip text)); simpl.
    + by constructor.
    + destruct images; simpl; by constructor.
Qed.

(** X2: a text part of the result is never empty, neither begins nor
    ends with white space, and is the submitted text with white space
    taken off both ends and nothing else. *)
Theorem X2_text_part_is_trimmed (text t : pystr) (images : list Image) :
  InputText t ∈ parts_of (build_input_parts text images) →
  t ≠ []
  ∧ (∃ a b, text = a ++ t ++ b ∧ blank a = true ∧ blank b = true)
  ∧ (∀ c, head t = Some c → Py.isspace c = false)
  ∧ (∀ c, last t = Some c → Py.isspace c = false).
Proof.
  rewrite parts_of_build_input_parts, build_content_eq.
  intros [Hin|Hin]%elem_of_app.
  - destruct (truthy (Py.strip text)) eqn:Hne; [|by apply elem_of_nil in Hin].
    apply list_elem_of_singleton in Hin. injection Hin as ->.
    split; [by destruct (Py.strip text)|].
    split; [apply strip_split|].
    split; [apply strip_head | apply strip_last].
  - apply list_elem_of_fmap in Hin as (image & Heq & _). discriminate Heq.
Qed.

Lemma X2_text_part_is_trimmed_witness :
  lit "hello" ≠ []
  ∧ ∃ a b, lit "  hello " = a ++ lit "hello" ++ b ∧ blank a = true ∧ blank b = true.
Proof.
  destruct (X2_text_part_is_trimmed (lit "  hello ") (lit "hello") [])
    as (Hne & Hsplit & _).
  - apply list_elem_of_singleton. reflexivity.
  - split; [exact Hne | exact Hsplit].
Defined.

(** X3: trimming the text before the call changes nothing in what
    the function returns. *)
Theorem X3_trimmed_text_same_parts (text : pystr) (images : list Image) :
  build_input_parts (Py.strip text) images = build_input_parts text images.
Proof.
  unfold build_input_parts. by rewrite !build_content_eq, strip_strip.
Qed.

(** ** The MIME type of an image record *)

Lemma split_not_nil (sep : codepoint) (s : pystr) : Py.split sep s ≠ [].
Proof.
  induction s as [|c s IH]; simpl; [done|].
  destruct (c =? sep)%N; [done|]. by destruct (Py.split sep s).
Qed.

Lemma split_pieces_no_sep (sep : codepoint) (s w : pystr) :
  w ∈ Py.split sep s → sep ∉ w.
Proof.
  revert w. induction s as [|c s IH]; simpl; intros w Hw.
  - apply list_elem_of_singleton in Hw as ->. apply not_elem_of_nil.
  - destruct (N.eqb_spec c sep) as [->|Hne].
    + apply elem_of_cons in Hw as [->|Hw]; [apply not_elem_of_nil | by apply IH].
    + destruct (Py.split sep s) as [|v vs]; simpl in *.
      * apply list_elem_of_singleton in Hw as ->.
        intros [?|H]%elem_of_cons; [done | by apply elem_of_nil in H].
      * apply elem_of_cons in Hw as [->|Hw].
        -- intros [?|H]%elem_of_cons; [done|].
           by apply (IH v); [left|].
        -- apply IH. by right.
Qed.

Lemma split_no_sep (sep : codepoint) (s : pystr) :
  sep ∉ s → Py.split sep s = [s].
Proof.
  induction s as [|c s IH]; simpl; [done|]. intros Hs.
  apply not_elem_of_cons in Hs as [Hc Hs].
  destruct (N.eqb_spec c sep) as [->|_]; [done|]. by rewrite IH.
Qed.

Lemma last_cons_not_nil {A} (x : A) (l : list A) : l ≠ [] → last (x :: l) = last l.
Proof. destruct l; [done|]. intros _. apply last_cons_cons. Qed.

Lemma split_length (sep : codepoint) (s : pystr) :
  length (Py.split sep s) = S (length (List.filter (N.eqb sep) s)).
Proof.
  induction s as [|c s IH]; simpl; [done|].
  rewrite (N.eqb_sym sep c).
  destruct (c =? sep)%N; simpl; [by rewrite IH|].
  rewrite <- IH. by destruct (Py.split sep s).
Qed.

(** The last piece is what follows the last separator. *)
Lemma split_last (sep : codepoint) (a b : pystr) :
  sep ∉ b → last (Py.split sep (a ++ sep :: b)) = Some b.
Proof.
  intros Hb. induction a as [|c a IH]; simpl.
  - rewrite N.eqb_refl, last_cons_not_nil by apply split_not_nil.
    by rewrite split_no_sep.
  - destruct (c =? sep)%N.
    + by rewrite last_cons_not_nil by apply split_not_nil.
    + pose proof (split_length sep (a ++ sep :: b)) as Hlen.
      rewrite List.filter_app in Hlen. simpl in Hlen.
      rewrite N.eqb_refl, length_app in Hlen. simpl in Hlen.
      destruct (Py.split sep (a ++ sep :: b)) as [|w [|w' ws]];
        [done | simpl in Hlen; lia |].
      by rewrite !last_cons_cons in *.
Qed.

Lemma png_no_slash : 47%N ∉ lit "png".
Proof.
  intros H. repeat (apply elem_of_cons in H as [H|H]; [discriminate H|]).
  by apply elem_of_nil in H.
Qed.

(** X4: whatever the uploaded file declares, [mime_type] is the text
    image/ followed by a subtype that holds no slash. *)
Theorem X4_mime_type_is_an_image_type (f : UploadedFile) :
  ∃ sub, mime_type (make_image f) = lit "image/" ++ sub ∧ 47%N ∉ sub.
Proof.
  simpl. unfold image_mime_type.
  destruct (file_type f) as [t|]; [destruct (truthy t)|].
  - destruct (Py.last_item (Py.split 47%N t)) as [w|] eqn:Hw; simpl.
    + exists w. split; [done|]. apply (split_pieces_no_sep 47%N t).
      unfold Py.last_item in Hw. apply last_Some in Hw as [l ->].
      apply elem_of_app. right. by left.
    + exists []. split; [done | apply not_elem_of_nil].
  - exists (lit "png"). split; [done | apply png_no_slash].
  - exists (lit "png"). split; [done | apply png_no_slash].
Qed.

(** X5: for a declared type of the form main/sub, [mime_type] keeps
    the subtype and replaces the main type by image; when the declared
    type is already image/sub, [mime_type] is the declared type and the
    data URL names it. *)
Theorem X5_mime_type_of_declared_type (f : UploadedFile) (main sub : pystr) :
  file_type f = Some (main ++ 47%N :: sub) →
  47%N ∉ sub →
  mime_type (make_image f) = lit "image/" ++ sub
  ∧ (main = lit "image" →
     mime_type (make_image f) = main ++ 47%N :: sub
     ∧ data_url (make_image f) =
         lit "data:" ++ mime_type (make_image f) ++ lit ";base64,"
         ++ Py.b64encode (file_bytes f)).
Proof.
  intros Ht Hsub.
  assert (Hmime : mime_type (make_image f) = lit "image/" ++ sub).
  { simpl. unfold image_mime_type, Py.last_item. rewrite Ht.
    rewrite split_last by done. by destruct main. }
  split; [exact Hmime|].
  intros ->. rewrite Hmime. split; [done|].
  simpl. unfold image_data_url. by rewrite Ht.
Qed.

Lemma X5_mime_type_of_declared_type_witness :
  mime_type (make_image {| file_type := Some (lit "application" ++ 47%N :: lit "pdf");
                            file_bytes := [x68; x69] |})
  = lit "image/pdf".
Proof.
  apply (X5_mime_type_of_declared_type _ (lit "application") (lit "pdf")).
  - reflexivity.
  - intros H. repeat (apply elem_of_cons in H as [H|H]; [discriminate H|]).
    by apply elem_of_nil in H.
Defined.

(** ** The base64 payload *)

Lemma list_ind3 {A} (P : list A → Prop) :
  P [] → (∀ a, P [a]) → (∀ a b, P [a; b]) →
  (∀ a b c l, P l → P (a :: b :: c :: l)) → ∀ l, P l.
Proof.
  intros H0 H1 H2 H3 l.
  assert (H : ∀ n (k : list A), length k ≤ n → P k).
  { induction n as [|n IH]; intros k Hk.
    - destruct k; [done | simpl in Hk; lia].
    - destruct k as [|a [|b [|c k]]]; auto.
      apply H3, IH. simpl in Hk. lia. }
  by apply (H (length l)).
Qed.

Lemma b64_char_not_pad (i : N) : Py.b64_char i ≠ Py.b64_pad.
Proof.
  unfold Py.b64_char, Py.b64_pad.
  repeat (case N.ltb_spec; intros ?); repeat (case N.eqb_spec; intros ?); lia.
Qed.

Lemma b64_char_inj (i j : N) :
  (i < 64)%N → (j < 64)%N → Py.b64_char i = Py.b64_char j → i = j.
Proof.
  unfold Py.b64_char. intros Hi Hj.
  repeat (case N.ltb_spec; intros ?); repeat (case N.eqb_spec; intros ?); lia.
Qed.

Lemma lor_shiftl_small (a b n : N) :
  (b < 2 ^ n)%N → N.lor (N.shiftl a n) b = (a * 2 ^ n + b)%N.
Proof.
  intros Hb. rewrite N.shiftl_mul_pow2.
  assert (Hland : N.land (a * 2 ^ n) b = 0%N).
  { apply N.bits_inj. intros m. rewrite N.land_spec, N.bits_0.
    destruct (N.lt_ge_cases m n) as [Hm|Hm].
    - by rewrite N.mul_pow2_bits_low.
    - rewrite <- (N.mod_small b (2 ^ n)) by done.
      rewrite N.mod_pow2_bits_high by done. apply andb_false_r. }
  by rewrite <- N.lxor_lor, <- N.add_nocarry_lxor.
Qed.

Lemma byte_bound (a : byte) : (Byte.to_N a < 256)%N.
Proof. pose proof (Byte.to_N_bounded a). lia. Qed.

Lemma land_low (x : N) (n : N) : N.land x (N.ones n) = (x mod 2 ^ n)%N.
Proof. apply N.land_ones. Qed.

Lemma sextet1 (x : N) : N.shiftr x 2 = (x / 4)%N.
Proof. apply (N.shiftr_div_pow2 x 2). Qed.

Lemma sextet2 (x y : N) :
  (y < 256)%N →
  N.lor (N.shiftl (N.land x 3) 4) (N.shiftr y 4) = ((x mod 4) * 16 + y / 16)%N.
Proof.
  intros Hy. change 3%N with (N.ones 2).
  rewrite N.land_ones, N.shiftr_div_pow2, lor_shiftl_small; [done|].
  by apply N.Div0.div_lt_upper_bound.
Qed.

Lemma sextet3 (y z : N) :
  (z < 256)%N →
  N.lor (N.shiftl (N.land y 15) 2) (N.shiftr z 6) = ((y mod 16) * 4 + z / 64)%N.
Proof.
  intros Hz. change 15%N with (N.ones 4).
  rewrite N.land_ones, N.shiftr_div_pow2, lor_shiftl_small; [done|].
  by apply N.Div0.div_lt_upper_bound.
Qed.

Lemma sextet4 (z : N) : N.land z 63 = (z mod 64)%N.
Proof. change 63%N with (N.ones 6). by rewrite N.land_ones. Qed.

Lemma sextet2_last (x : N) : N.shiftl (N.land x 3) 4 = ((x mod 4) * 16)%N.
Proof. change 3%N with (N.ones 2). by rewrite N.land_ones, N.shiftl_mul_pow2. Qed.

Lemma sextet3_last (y : N) : N.shiftl (N.land y 15) 2 = ((y mod 16) * 4)%N.
Proof. change 15%N with (N.ones 4). by rewrite N.land_ones, N.shiftl_mul_pow2. Qed.

(** The four indices of a group are below 64 and determine its bytes. *)
Lemma sextets_bounds (x y z : N) :
  (x < 256 → y < 256 → z < 256 →
   x / 4 < 64 ∧ (x mod 4) * 16 + y / 16 < 64
   ∧ (y mod 16) * 4 + z / 64 < 64 ∧ z mod 64 < 64
   ∧ (x mod 4) * 16 < 64 ∧ (y mod 16) * 4 < 64)%N.
Proof.
  intros Hx Hy Hz. div_mod_facts x. div_mod_facts y. div_mod_facts z.
  name_div_mod. lia.
Qed.

Lemma sextets_inj (x y z x' y' z' : N) :
  (x < 256 → y < 256 → z < 256 → x' < 256 → y' < 256 → z' < 256 →
   x / 4 = x' / 4 →
   (x mod 4) * 16 + y / 16 = (x' mod 4) * 16 + y' / 16 →
   (y mod 16) * 4 + z / 64 = (y' mod 16) * 4 + z' / 64 →
   z mod 64 = z' mod 64 →
   x = x' ∧ y = y' ∧ z = z')%N.
Proof.
  intros. div_mod_facts x. div_mod_facts y. div_mod_facts z.
  div_mod_facts x'. div_mod_facts y'. div_mod_facts z'.
  name_div_mod. lia.
Qed.

Lemma byte_to_N_inj (a b : byte) : Byte.to_N a = Byte.to_N b → a = b.
Proof.
  intros H. apply (f_equal Byte.of_N) in H.
  rewrite !Byte.of_to_N in H. by injection H.
Qed.

(** The characters of a full group determine its three bytes. *)
Lemma group_inj (a b c a' b' c' : byte) :
  Py.b64_char (N.shiftr (Byte.to_N a) 2) = Py.b64_char (N.shiftr (Byte.to_N a') 2) →
  Py.b64_char (N.lor (N.shiftl (N.land (Byte.to_N a) 3) 4) (N.shiftr (Byte.to_N b) 4))
  = Py.b64_char (N.lor (N.shiftl (N.land (Byte.to_N a') 3) 4) (N.shiftr (Byte.to_N b') 4)) →
  Py.b64_char (N.lor (N.shiftl (N.land (Byte.to_N b) 15) 2) (N.shiftr (Byte.to_N c) 6))
  = Py.b64_char (N.lor (N.shiftl (N.land (Byte.to_N b') 15) 2) (N.shiftr (Byte.to_N c') 6)) →
  Py.b64_char (N.land (Byte.to_N c) 63) = Py.b64_char (N.land (Byte.to_N c') 63) →
  a = a' ∧ b = b' ∧ c = c'.
Proof.
  pose proof (byte_bound a) as Ha. pose proof (byte_bound b) as Hb.
  pose proof (byte_bound c) as Hc. pose proof (byte_bound a') as Ha'.
  pose proof (byte_bound b') as Hb'. pose proof (byte_bound c') as Hc'.
  rewrite !sextet1, !sextet2, !sextet3, !sextet4 by done.
  destruct (sextets_bounds _ _ _ Ha Hb Hc) as (? & ? & ? & ? & _).
  destruct (sextets_bounds _ _ _ Ha' Hb' Hc') as (? & ? & ? & ? & _).
  intros E1%b64_char_inj E2%b64_char_inj E3%b64_char_inj E4%b64_char_inj; try done.
  destruct (sextets_inj _ _ _ _ _ _ Ha Hb Hc Ha' Hb' Hc' E1 E2 E3 E4) as (? & ? & ?).
  auto using byte_to_N_inj.
Qed.

(** Two bytes followed by padding: the third index holds the low bits
    of the second byte only. *)
Lemma group2_inj (a b a' b' : byte) :
  Py.b64_char (N.shiftr (Byte.to_N a) 2) = Py.b64_char (N.shiftr (Byte.to_N a') 2) →
  Py.b64_char (N.lor (N.shiftl (N.land (Byte.to_N a) 3) 4) (N.shiftr (Byte.to_N b) 4))
  = Py.b64_char (N.lor (N.shiftl (N.land (Byte.to_N a') 3) 4) (N.shiftr (Byte.to_N b') 4)) →
  Py.b64_char (N.shiftl (N.land (Byte.to_N b) 15) 2)
  = Py.b64_char (N.shiftl (N.land (Byte.to_N b') 15) 2) →
  a = a' ∧ b = b'.
Proof.
  pose proof (byte_bound a) as Ha. pose proof (byte_bound b) as Hb.
  pose proof (byte_bound a') as Ha'. pose proof (byte_bound b') as Hb'.
  rewrite !sextet1, !sextet2, !sextet3_last by done.
  destruct (sextets_bounds _ _ _ Ha Hb Hb) as (? & ? & _ & _ & _ & ?).
  destruct (sextets_bounds _ _ _ Ha' Hb' Hb') as (? & ? & _ & _ & _ & ?).
  intros E1%b64_char_inj E2%b64_char_inj E3%b64_char_inj; try done.
  assert (Hz : (0 < 256)%N) by done.
  destruct (sextets_inj (Byte.to_N a) (Byte.to_N b) 0 (Byte.to_N a') (Byte.to_N b') 0)
    as (? & ? & _); try done.
  - simpl (0 / 64)%N. lia.
  - auto using byte_to_N_inj.
Qed.

Lemma group1_inj (a a' : byte) :
  Py.b64_char (N.shiftr (Byte.to_N a) 2) = Py.b64_char (N.shiftr (Byte.to_N a') 2) →
  Py.b64_char (N.shiftl (N.land (Byte.to_N a) 3) 4)
  = Py.b64_char (N.shiftl (N.land (Byte.to_N a') 3) 4) →
  a = a'.
Proof.
  pose proof (byte_bound a) as Ha. pose proof (byte_bound a') as Ha'.
  rewrite !sextet1, !sextet2_last.
  destruct (sextets_bounds _ _ _ Ha Ha Ha) as (? & _ & _ & _ & ? & _).
  destruct (sextets_bounds _ _ _ Ha' Ha' Ha') as (? & _ & _ & _ & ? & _).
  intros E1%b64_char_inj E2%b64_char_inj; try done.
  apply byte_to_N_inj.
  destruct (sextets_inj (Byte.to_N a) 0 0 (Byte.to_N a') 0 0) as (? & _); try done.
  simpl (0 / 16)%N. lia.
Qed.

Lemma b64encode_inj (bs bs' : list byte) :
  Py.b64encode bs = Py.b64encode bs' → bs = bs'.
Proof.
  revert bs'. induction bs as [|a|a b|a b c bs IH] using list_ind3;
    intros [|a' [|b' [|c' bs']]] H; cbn [Py.b64encode] in H;
    try done; injection H; clear H; intros;
    try match goal with
        | H : Py.b64_char _ = Py.b64_pad |- _ => by destruct (b64_char_not_pad _ H)
        | H : Py.b64_pad = Py.b64_char _ |- _ =>
            by destruct (b64_char_not_pad _ (eq_sym H))
        end.
  - by rewrite (group1_inj a a').
  - by destruct (group2_inj a b a' b') as [-> ->].
  - destruct (group_inj a b c a' b' c') as (-> & -> & ->); try done.
    by rewrite (IH bs').
Qed.

Lemma b64_char_alphabet (i : N) : b64_alphabet (Py.b64_char i) = true.
Proof.
  unfold Py.b64_char.
  repeat (case N.ltb_spec; intros ?); repeat (case N.eqb_spec; intros ?);
    unfold b64_alphabet;
    rewrite !orb_true_iff, !andb_true_iff, !N.leb_le, !N.eqb_eq; lia.
Qed.

Lemma b64_padding_add3 (n : nat) : b64_padding (S (S (S n))) = b64_padding n.
Proof.
  unfold b64_padding.
  replace (S (S (S n))) with (n + 1 * 3) by lia.
  by rewrite Nat.Div0.mod_add.
Qed.

(** X6: the payload is made of characters of the base64 alphabet
    followed by the padding, none, one or two equals signs according to
    the number of bytes; it is four characters for every three bytes
    begun, all of them ASCII. *)
Theorem X6_payload_alphabet_and_padding (bs : list byte) :
  (∃ body,
     Py.b64encode bs = body ++ replicate (b64_padding (length bs)) Py.b64_pad
     ∧ Forall (λ c, b64_alphabet c = true) body)
  ∧ length (Py.b64encode bs) = 4 * ((length bs + 2) / 3)
  ∧ Forall (λ c, (c < 128)%N) (Py.b64encode bs).
Proof.
  split; [|split].
  - induction bs as [|a|a b|a b c bs (body & Henc & Hbody)] using list_ind3.
    + by exists [].
    + eexists [_; _]. split; [reflexivity|].
      repeat constructor; apply b64_char_alphabet.
    + eexists [_; _; _]. split; [reflexivity|].
      repeat constructor; apply b64_char_alphabet.
    + eexists (_ :: _ :: _ :: _ :: body). cbn [Py.b64encode length].
      rewrite b64_padding_add3, Henc. split; [reflexivity|].
      repeat (constructor; [apply b64_char_alphabet|]). exact Hbody.
  - apply b64encode_length.
  - assert (Hchar : ∀ i, (Py.b64_char i < 128)%N).
    { intros i. unfold Py.b64_char.
      repeat (case N.ltb_spec; intros ?); repeat (case N.eqb_spec; intros ?); lia. }
    induction bs as [|a|a b|a b c bs IH] using list_ind3; cbn [Py.b64encode];
      repeat (constructor; [apply Hchar || done|]); done || exact IH.
Qed.

(** X7: two uploads with the same declared type and the same data URL
    are the same file: the URL loses nothing of the bytes. *)
Theorem X7_data_url_determines_bytes (f g : UploadedFile) :
  file_type f = file_type g →
  data_url (make_image f) = data_url (make_image g) →
  f = g.
Proof.
  destruct f as [t bs], g as [t' bs']. cbn [file_type]. intros ->.
  cbn [data_url make_image]. unfold image_data_url. cbn [file_type file_bytes].
  intros H. do 3 apply app_inv_head in H.
  by rewrite (b64encode_inj bs bs').
Qed.

Lemma X7_data_url_determines_bytes_witness :
  untyped_file = {| file_type := Some []; file_bytes := [x68; x69] |}.
Proof.
  apply (X7_data_url_determines_bytes untyped_file
           {| file_type := Some []; file_bytes := [x68; x69] |});
    reflexivity.
Defined.

(** ** More on start-up *)

(** The lookup of one entry succeeds exactly when the entry is provided. *)
Lemma getenv_or_secret_ok (p : Process) (key : string) :
  (∃ v, getenv_or_secret p key = Ok v) ↔ provided p key.
Proof.
  unfold getenv_or_secret, provided, secrets_getitem. split.
  - intros [v Hv]. destruct (environ p !! key) as [w|] eqn:Henv; simpl.
    + destruct (truthy w); [by left|]. right.
      destruct (secrets p) as [m|]; [|done]. exists m.
      destruct (m !! key); [by split|done].
    + right. destruct (secrets p) as [m|]; [|done]. exists m.
      destruct (m !! key); [by split|done].
  - intros [Henv|(m & Hm & [v Hv])].
    + destruct (environ p !! key) as [w|]; [|done]. simpl in Henv.
      rewrite Henv. by exists w.
    + rewrite Hm, Hv. destruct (environ p !! key) as [w|]; [|by exists v].
      destruct (truthy w); [by exists w | by exists v].
Qed.

Lemma client_is_built (env : gmap string pystr) (key : pystr) :
  OpenAI (<["OPENAI_API_KEY"%string := key]> env) = Ok tt.
Proof. unfold OpenAI. by rewrite lookup_insert_eq. Qed.

(** X8: start-up cannot complete unless both entries are provided,
    each by a non-empty environment variable or by an entry of the
    secrets file: when one of them is in neither place the execution
    stops with an exception, before any warning is shown. *)
Theorem X8_startup_needs_both_entries (p : Process) :
  ((∃ cfg warnings, startup p = Ok (cfg, warnings)) →
   provided p "OPENAI_API_KEY" ∧ provided p "VECTOR_STORE_ID")
  ∧ (¬ (provided p "OPENAI_API_KEY" ∧ provided p "VECTOR_STORE_ID") →
     ∃ e, startup p = Raise e).
Proof.
  assert (Hok : (∃ cfg warnings, startup p = Ok (cfg, warnings)) →
                provided p "OPENAI_API_KEY" ∧ provided p "VECTOR_STORE_ID").
  { rewrite <- !getenv_or_secret_ok. unfold startup.
    intros (cfg & warnings & H).
    destruct (getenv_or_secret p "OPENAI_API_KEY") as [key|]; [|done].
    destruct (getenv_or_secret p "VECTOR_STORE_ID") as [store|]; [|done].
    eauto. }
  split; [exact Hok|].
  intros Hnot. destruct (startup p) as [[cfg warnings]|e] eqn:Hp; [|by exists e].
  destruct Hnot. apply Hok. eauto.
Qed.

Lemma X8_startup_needs_both_entries_witness :
  provided env_only "OPENAI_API_KEY" ∧ provided env_only "VECTOR_STORE_ID".
Proof.
  apply (X8_startup_needs_both_entries env_only).
  exists {| OPENAI_API_KEY := lit "sk-test"; VECTOR_STORE_ID := lit "vs_1" |}, [].
  vm_compute. reflexivity.
Defined.

(** X9: values set in the environment win: when both variables are set
    and not empty, start-up completes with them and without warning,
    whatever the secrets hold and even with no secrets file. *)
Theorem X9_environment_takes_precedence (p : Process) (key store : pystr) :
  environ p !! "OPENAI_API_KEY"%string = Some key →
  environ p !! "VECTOR_STORE_ID"%string = Some store →
  key ≠ [] → store ≠ [] →
  startup p = Ok ({| OPENAI_API_KEY := key; VECTOR_STORE_ID := store |}, []).
Proof.
  intros Hkey Hstore Hk Hs. unfold startup, getenv_or_secret.
  rewrite Hkey, Hstore.
  destruct key as [|c key]; [done|]. destruct store as [|d store]; [done|].
  simpl. by rewrite client_is_built.
Qed.

Lemma X9_environment_takes_precedence_witness :
  startup env_only =
    Ok ({| OPENAI_API_KEY := lit "sk-test"; VECTOR_STORE_ID := lit "vs_1" |}, []).
Proof.
  apply X9_environment_takes_precedence.
  - apply lookup_insert_eq.
  - unfold env_only, environ. rewrite lookup_insert_ne by done.
    apply lookup_singleton_eq.
  - discriminate.
  - discriminate.
Defined.

Lemma warnings_differ : api_key_warning ≠ vector_store_warning.
Proof. discriminate. Qed.

(** X11: when start-up completes, a warning is shown for an entry
    exactly when its value is empty, no warning is shown twice, and an
    empty value can only have come from the secrets file. *)
Theorem X11_warnings_for_empty_values (p : Process) (cfg : Config)
    (warnings : list pystr) :
  startup p = Ok (cfg, warnings) →
  (api_key_warning ∈ warnings ↔ OPENAI_API_KEY cfg = [])
  ∧ (vector_store_warning ∈ warnings ↔ VECTOR_STORE_ID cfg = [])
  ∧ NoDup warnings
  ∧ (OPENAI_API_KEY cfg = [] →
     ∃ m, secrets p = Some m ∧ m !! "OPENAI_API_KEY"%string = Some [])
  ∧ (VECTOR_STORE_ID cfg = [] →
     ∃ m, secrets p = Some m ∧ m !! "VECTOR_STORE_ID"%string = Some []).
Proof.
  assert (Hsrc : ∀ key, getenv_or_secret p key = Ok [] →
                        ∃ m, secrets p = Some m ∧ m !! key = Some []).
  { intros key. unfold getenv_or_secret, secrets_getitem.
    destruct (environ p !! key) as [[|c w]|]; simpl; [|done|];
      (destruct (secrets p) as [m|]; [|done]);
      (destruct (m !! key) as [v|] eqn:Hv; [|done]); intros [= ->]; eauto. }
  unfold startup.
  destruct (getenv_or_secret p "OPENAI_API_KEY") as [key|] eqn:Hkey; [|done].
  destruct (getenv_or_secret p "VECTOR_STORE_ID") as [store|] eqn:Hstore; [|done].
  simpl. rewrite client_is_built. simpl. intros [= <- <-]. simpl.
  pose proof warnings_differ as Hne.
  destruct key as [|c key], store as [|d store]; simpl;
    repeat split; try done; try (intros _; by apply Hsrc);
    rewrite ?elem_of_cons, ?elem_of_nil; try tauto;
    try (intros; exfalso; intuition congruence);
    try (apply NoDup_nil_2);
    try (apply NoDup_singleton).
  apply NoDup_cons. split; [|apply NoDup_singleton].
  rewrite list_elem_of_singleton. done.
Qed.

Lemma X11_warnings_for_empty_values_witness :
  api_key_warning ∈ [api_key_warning] ↔ @nil codepoint = [].
Proof.
  apply (X11_warnings_for_empty_values empty_api_key
           {| OPENAI_API_KEY := []; VECTOR_STORE_ID := lit "vs_1" |}
           [api_key_warning]).
  vm_compute. reflexivity.
Defined.

(** ** More on sessions *)

Lemma script_requests cfg s ev :
  requests (script cfg s ev) =
    match ev with
    | ChatSubmitted text uploaded _ =>
        [call_responses_api cfg (build_input_parts text (process_uploads uploaded))
           (Session.previous_response_id s)]
    | _ => []
    end.
Proof. destruct ev as [| |text uploaded [response|e]]; done. Qed.

Lemma script_state cfg s ev :
  state (script cfg s ev) =
    match ev with
    | NoInput => s
    | ClearClicked => Session.clear s
    | ChatSubmitted text uploaded (Raise _) =>
        Session.append (UserMessage text (map image_data_url uploaded)) s
    | ChatSubmitted text uploaded (Ok response) =>
        Session.bump_uploader_key
          (Session.append (AssistantMessage (Response.output_text response))
             (Session.set_previous_response_id (next_response_id response)
                (Session.append (UserMessage text (map image_data_url uploaded)) s)))
    end.
Proof.
  destruct ev as [| |text uploaded [response|e]]; try done;
    simpl; unfold on_chat_input, process_uploads; by rewrite map_map.
Qed.

Lemma build_input_parts_length (text : pystr) (images : list Image) :
  length (build_input_parts text images) ≤ 1.
Proof. unfold build_input_parts. destruct (build_content text images); simpl; lia. Qed.

(** X12: a session sends one request per submission, blank ones
    included, and none for any other event; every request names the
    same model, the one vector store of the configuration and the
    system prompt, and carries at most one message. *)
Theorem X12_one_request_per_submission cfg s (evs : list Event) :
  length (snd (session cfg s evs)) = length (List.filter is_submission evs)
  ∧ Forall (fixed_fields cfg) (snd (session cfg s evs))
  ∧ Forall (λ req, length (Request.input req) ≤ 1) (snd (session cfg s evs)).
Proof.
  revert s. induction evs as [|ev evs IH]; intros s.
  - simpl. repeat split; constructor.
  - rewrite session_cons. cbn [snd]. rewrite script_requests.
    destruct (IH (state (script cfg s ev))) as (Hlen & Hfix & Hin).
    destruct ev as [| |text uploaded outcome];
      cbn [List.filter is_submission app length]; try done.
    rewrite Hlen. repeat split; constructor; try done.
    apply build_input_parts_length.
Qed.

Lemma next_response_id_proper (response : Response.t) :
  proper_id (next_response_id response) = true.
Proof.
  unfold next_response_id.
  by destruct (Response.id response) as [[|c i]|].
Qed.

Lemma session_proper_ids cfg s (evs : list Event) :
  proper_id (Session.previous_response_id s) = true →
  proper_id (Session.previous_response_id (fst (session cfg s evs))) = true
  ∧ Forall (λ req, proper_id (Request.previous_response_id req) = true)
      (snd (session cfg s evs)).
Proof.
  revert s. induction evs as [|ev evs IH]; intros s Hs; [by split|].
  rewrite session_cons. cbn [fst snd]. rewrite script_requests.
  destruct (IH (state (script cfg s ev))) as [Hfin Hreqs].
  { rewrite script_state.
    destruct ev as [| |text uploaded [response|e]]; try done.
    apply next_response_id_proper. }
  split; [done|].
  destruct ev as [| |text uploaded outcome]; try done. by constructor.
Qed.

Lemma session_first_request cfg s (evs : list Event) (req : Request.t) :
  Session.previous_response_id s = None →
  head (snd (session cfg s evs)) = Some req →
  Request.previous_response_id req = None.
Proof.
  revert s. induction evs as [|ev evs IH]; intros s Hs; [done|].
  rewrite session_cons. cbn [snd]. rewrite script_requests.
  destruct ev as [| |text uploaded outcome]; simpl.
  - by apply IH.
  - by apply IH.
  - by intros [= <-].
Qed.

(** X13: in a session that starts fresh, the first request carries no
    [previous_response_id], and no request ever carries an empty one:
    the identifier sent is absent or a non-empty string. *)
Theorem X13_identifiers_sent cfg (evs : list Event) :
  Forall (λ req, proper_id (Request.previous_response_id req) = true) (calls cfg evs)
  ∧ (∀ req, head (calls cfg evs) = Some req → Request.previous_response_id req = None).
Proof.
  unfold calls. split.
  - by apply session_proper_ids.
  - intros req. by apply session_first_request.
Qed.

Lemma session_no_id_without_history cfg s (evs : list Event) :
  (Session.messages s = [] → Session.previous_response_id s = None) →
  Session.messages (fst (session cfg s evs)) = [] →
  Session.previous_response_id (fst (session cfg s evs)) = None.
Proof.
  revert s. induction evs as [|ev evs IH]; intros s Hs; [done|].
  rewrite session_cons. cbn [fst]. apply IH. rewrite script_state.
  destruct ev as [| |text uploaded [response|e]]; try done; simpl;
    intros H; by apply app_nil in H as [_ H].
Qed.

(** X14: in a session that starts fresh, an empty history never comes
    with an identifier: whenever the history is empty, the next request
    starts a new conversation. *)
Theorem X14_empty_history_has_no_identifier cfg (evs : list Event) :
  history cfg evs = [] →
  Session.previous_response_id (fst (session cfg Session.fresh evs)) = None.
Proof. by apply session_no_id_without_history. Qed.

Lemma X14_empty_history_has_no_identifier_witness :
  Session.previous_response_id
    (fst (session example_cfg Session.fresh [submit answered_turn; ClearClicked]))
  = None.
Proof.
  apply (X14_empty_history_has_no_identifier example_cfg
           [submit answered_turn; ClearClicked]).
  reflexivity.
Defined.

Lemma replies_follow_users_app (b : bool) (ms rest : list ChatMessage)
    (text : pystr) (images : list pystr) :
  replies_follow_users b ms = true →
  replies_follow_users true rest = true →
  replies_follow_users b (ms ++ UserMessage text images :: rest) = true.
Proof.
  revert b. induction ms as [|m ms IH]; intros b Hms Hrest; [done|].
  destruct m as [t i|c]; simpl in *; [by apply IH|].
  apply andb_prop in Hms as [-> Hms]. by apply IH.
Qed.

Lemma session_replies_follow_users cfg s (evs : list Event) :
  replies_follow_users false (Session.messages s) = true →
  replies_follow_users false (Session.messages (fst (session cfg s evs))) = true.
Proof.
  revert s. induction evs as [|ev evs IH]; intros s Hs; [done|].
  rewrite session_cons. cbn [fst]. apply IH. rewrite script_state.
  destruct ev as [| |text uploaded [response|e]]; try done; simpl.
  - rewrite <- app_assoc. by apply replies_follow_users_app.
  - by apply replies_follow_users_app.
Qed.

(** X15: in a session that starts fresh the history never begins with
    an assistant message and never has two of them in a row: every
    reply stands right after the user message it answers. *)
Theorem X15_replies_follow_user_messages cfg (evs : list Event) :
  replies_follow_users false (history cfg evs) = true.
Proof. by apply session_replies_follow_users. Qed.

(** X16: as long as the history is not cleared, a session only appends
    to it: what was there stays, in place and unchanged. *)
Theorem X16_history_is_append_only cfg s (evs : list Event) :
  existsb is_clear evs = false →
  ∃ added,
    Session.messages (fst (session cfg s evs)) = Session.messages s ++ added.
Proof.
  revert s. induction evs as [|ev evs IH]; intros s Hevs.
  - exists []. simpl. by rewrite app_nil_r.
  - simpl in Hevs. apply orb_false_elim in Hevs as [Hev Hevs].
    rewrite session_cons. cbn [fst].
    destruct (IH (state (script cfg s ev)) Hevs) as [added ->].
    rewrite script_state.
    destruct ev as [| |text uploaded [response|e]]; [|done| |]; simpl.
    + by exists added.
    + eexists. by rewrite <- !app_assoc.
    + eexists. by rewrite <- !app_assoc.
Qed.

Lemma X16_history_is_append_only_witness :
  ∃ added,
    Session.messages
      (fst (session example_cfg (Session.append (AssistantMessage (lit "kept")) Session.fresh)
              [submit failed_turn; NoInput; submit answered_turn]))
    = [AssistantMessage (lit "kept")] ++ added.
Proof.
  apply (X16_history_is_append_only example_cfg
           (Session.append (AssistantMessage (lit "kept")) Session.fresh)
           [submit failed_turn; NoInput; submit answered_turn]).
  reflexivity.
Defined.

(** X17: the counter in the key of the upload widget goes up by one on
    each answered submission and on nothing else, so the uploader is
    emptied after a reply and keeps its files after a failed call or a
    clear; [thread_id] is never written. *)
Theorem X17_uploader_key_counts_replies cfg s (evs : list Event) :
  Session.uploader_key (fst (session cfg s evs)) =
    Session.uploader_key s + length (List.filter is_answered evs)
  ∧ Session.thread_id (fst (session cfg s evs)) = Session.thread_id s.
Proof.
  revert s. induction evs as [|ev evs IH]; intros s.
  - simpl. split; [lia|done].
  - rewrite session_cons. cbn [fst].
    destruct (IH (state (script cfg s ev))) as [-> ->].
    rewrite script_state.
    destruct ev as [| |text uploaded [response|e]]; simpl; split; done || lia.
Qed.

(** X18: after a call that raised, the next submission carries the
    same [previous_response_id] as the failed one, and submitting the
    same text and files again sends the very same request. *)
Theorem X18_retry_after_failure cfg s text uploaded e mid text' uploaded' outcome' :
  existsb is_submission mid = false →
  existsb is_clear mid = false →
  snd (session cfg s (ChatSubmitted text uploaded (Raise e)
                        :: mid ++ [ChatSubmitted text' uploaded' outcome']))
  = [call_responses_api cfg (build_input_parts text (process_uploads uploaded))
       (Session.previous_response_id s);
     call_responses_api cfg (build_input_parts text' (process_uploads uploaded'))
       (Session.previous_response_id s)].
Proof.
  intros Hsub Hclear.
  rewrite session_cons. cbn [snd]. rewrite script_requests, script_state.
  rewrite session_app. cbn [snd].
  set (s1 := Session.append (UserMessage text (map image_data_url uploaded)) s).
  destruct (session_without_submission cfg s1 mid Hsub) as [-> Hprev].
  rewrite Hclear in Hprev.
  rewrite session_cons. cbn [snd session]. rewrite script_requests, Hprev.
  done.
Qed.

Lemma X18_retry_after_failure_witness :
  snd (session example_cfg Session.fresh
         (ChatSubmitted (lit "Tell me more") [] (Raise boom)
            :: [NoInput] ++ [ChatSubmitted (lit "Tell me more") [] (Raise boom)]))
  = [call_responses_api example_cfg (build_input_parts (lit "Tell me more") (process_uploads [])) None;
     call_responses_api example_cfg (build_input_parts (lit "Tell me more") (process_uploads [])) None].
Proof.
  apply (X18_retry_after_failure example_cfg Session.fresh (lit "Tell me more") []
           boom [NoInput] (lit "Tell me more") [] (Raise boom));
    reflexivity.
Defined.

(** X19: the image URLs kept with the user message for display are the
    URLs sent in the request: both are the data URLs of the uploaded
    files, one per file and in upload order, so that the URL at each
    position is the one of the file uploaded at that position. *)
Theorem X19_stored_urls_are_sent_urls cfg s text uploaded outcome :
  let r := script cfg s (ChatSubmitted text uploaded outcome) in
  let urls := map image_data_url uploaded in
  ∃ req rest,
    requests r = [req]
    ∧ Session.messages (state r) = Session.messages s ++ UserMessage text urls :: rest
    ∧ List.filter is_image_part (parts_of (Request.input req)) = map InputImage urls
    ∧ length urls = length uploaded
    ∧ ∀ i, urls !! i = image_data_url <$> uploaded !! i.
Proof.
  intros r urls. subst r urls. rewrite script_requests, script_state.
  eexists _,
    (match outcome with
     | Ok response => [AssistantMessage (Response.output_text response)]
     | Raise _ => []
     end).
  split; [reflexivity|].
  cbn [Request.input call_responses_api].
  rewrite parts_of_build_input_parts, build_content_eq.
  rewrite List.filter_app, filter_image_images.
  split; [|split; [|split]].
  - destruct outcome as [response|e]; simpl.
    + by rewrite <- app_assoc.
    + done.
  - unfold process_uploads. rewrite !map_map.
    by destruct (truthy (Py.strip text)).
  - apply length_map.
  - intros i. apply list_lookup_fmap.
Qed.

Lemma show_history_app (ms ms' : list ChatMessage) :
  show_history (ms ++ ms') = show_history ms ++ show_history ms'.
Proof. unfold show_history. by rewrite map_app, concat_app. Qed.

Lemma show_history_one (m : ChatMessage) : show_history [m] = show_message m.
Proof. unfold show_history. simpl. apply app_nil_r. Qed.

(** X20: what the handler displays while it answers is what the next
    execution draws again from the stored history; after a call that
    raised it is that history followed by the one error box, and the
    box is gone at the next execution. *)
Theorem X20_display_matches_history cfg s text uploaded :
  (∀ response,
     let r := script cfg s (ChatSubmitted text uploaded (Ok response)) in
     shown r = show_history (Session.messages (state r))
     ∧ shown (interact cfg s (ChatSubmitted text uploaded (Ok response))) = shown r)
  ∧ (∀ e,
       let r := script cfg s (ChatSubmitted text uploaded (Raise e)) in
       shown r = show_history (Session.messages (state r))
                 ++ [ErrorBox (lit "An error occurred: " ++ str_of e)]
       ∧ shown (script cfg (state r) NoInput)
         = show_history (Session.messages (state r))
       ∧ List.filter is_error (shown (script cfg (state r) NoInput)) = []).
Proof.
  assert (Hurls : map (λ image, ShowImage User (data_url image)) (process_uploads uploaded)
                  = map (ShowImage User) (map image_data_url uploaded)).
  { unfold process_uploads. by rewrite !map_map. }
  split.
  - intros response r.
    assert (Hr : shown r = show_history (Session.messages (state r))).
    { subst r. rewrite script_state. simpl. unfold on_chat_input. simpl.
      by rewrite Hurls, !show_history_app, !show_history_one. }
    split; [exact Hr|]. rewrite Hr. done.
  - intros e r. subst r. rewrite script_state. simpl. unfold on_chat_input. simpl.
    rewrite Hurls, !show_history_app, !show_history_one.
    repeat split.
    rewrite <- (show_history_no_error
                  (Session.messages s ++ [UserMessage text (map image_data_url uploaded)])).
    by rewrite show_history_app, show_history_one.
Qed.

(** X21: the input of each request is built from its own submission
    alone: earlier turns are never sent again, whatever the history
    holds, and the context travels in [previous_response_id] only. *)
Theorem X21_requests_carry_own_submission cfg s (evs : list Event) :
  map Request.input (snd (session cfg s evs)) = omap submitted_input evs.
Proof.
  revert s. induction evs as [|ev evs IH]; intros s; [done|].
  rewrite session_cons. cbn [snd]. rewrite map_app, IH, script_requests.
  by destruct ev as [| |text uploaded outcome].
Qed.

(** ** The display of the history *)

Lemma show_history_cons (m : ChatMessage) (ms : list ChatMessage) :
  show_history (m :: ms) = show_message m ++ show_history ms.
Proof. done. Qed.

Lemma show_history_starts_without_image (ms : list ChatMessage) :
  starts_without_image (show_history ms).
Proof.
  destruct ms as [|[text images|c] ms]; [done| |];
    rewrite show_history_cons; done.
Qed.

Lemma images_then_rest_inj (urls urls' : list pystr) (ds ds' : list Display) :
  starts_without_image ds → starts_without_image ds' →
  map (ShowImage User) urls ++ ds = map (ShowImage User) urls' ++ ds' →
  urls = urls' ∧ ds = ds'.
Proof.
  intros Hds Hds'. revert urls'.
  induction urls as [|u urls IH]; intros [|u' urls'] H; simpl in H.
  - done.
  - subst ds. done.
  - subst ds'. done.
  - injection H as -> H. destruct (IH _ H) as [-> ->]. done.
Qed.

(** X22: the display loop loses nothing: two histories that are drawn
    the same way are the same history, texts, roles and image URLs
    included. *)
Theorem X22_display_determines_history (ms ms' : list ChatMessage) :
  show_history ms = show_history ms' → ms = ms'.
Proof.
  revert ms'. induction ms as [|m ms IH]; intros [|m' ms'];
    rewrite ?show_history_cons.
  - done.
  - by destruct m'.
  - by destruct m.
  - destruct m as [text images|c], m' as [text' images'|c']; simpl;
      intros H; try discriminate H.
    + injection H as -> H.
      apply images_then_rest_inj in H as [-> H];
        try apply show_history_starts_without_image.
      by rewrite (IH ms').
    + injection H as -> H. by rewrite (IH ms').
Qed.

Lemma X22_display_determines_history_witness :
  [UserMessage (lit "hi") [lit "data:;base64,aGk="]; AssistantMessage (lit "hello")]
  = [UserMessage (lit "hi") [lit "data:;base64,aGk="]; AssistantMessage (lit "hello")].
Proof.
  apply X22_display_determines_history. reflexivity.
Defined.
